(** * mihoyo-ics: extraction, merging and calendar layout of banner events

    A shallow embedding of [src/main.py] (PostCrawler, ICSGenerator,
    merge_events) together with the parts of the Python runtime the
    program relies on (str operations, the [re] engine on the three
    patterns of the program, [datetime]), followed by the properties of
    the extraction-and-normalisation core. *)

From Stdlib Require Import ZArith NArith List Bool Ascii String Lia.
From stdpp Require Import base option list gmap sets.

Local Open Scope Z_scope.

(* ===================================================================== *)
(** ** Python strings *)
(* ===================================================================== *)

(** A Python [str] is a sequence of Unicode code points. *)
Module PyStr.

Definition char := N.
Definition str := list N.

(** Source literals are written as UTF-8 string literals and decoded to code
    points, so that the constants below read like those of [main.py]. *)
Fixpoint utf8_decode (bs : list N) : str :=
  match bs with
  | [] => []
  | b :: rest =>
    if (b <? 0x80)%N then b :: utf8_decode rest
    else if (b <? 0xE0)%N then
      match rest with
      | c1 :: rest' => ((b - 0xC0) * 64 + (c1 - 0x80))%N :: utf8_decode rest'
      | _ => []
      end
    else if (b <? 0xF0)%N then
      match rest with
      | c1 :: c2 :: rest' =>
        ((b - 0xE0) * 4096 + (c1 - 0x80) * 64 + (c2 - 0x80))%N :: utf8_decode rest'
      | _ => []
      end
    else
      match rest with
      | c1 :: c2 :: c3 :: rest' =>
        ((b - 0xF0) * 262144 + (c1 - 0x80) * 4096 + (c2 - 0x80) * 64 + (c3 - 0x80))%N
          :: utf8_decode rest'
      | _ => []
      end
  end.

Definition py (s : string) : str :=
  utf8_decode (map N_of_ascii (list_ascii_of_string s)).

Definition chr (a : ascii) : char := N_of_ascii a.

(** [prefix_of p s]: [s.startswith(p)]. *)
Fixpoint prefix_of (p s : str) : bool :=
  match p, s with
  | [], _ => true
  | _ :: _, [] => false
  | a :: p', b :: s' => (a =? b)%N && prefix_of p' s'
  end.

(** [contains needle hay]: the Python test [needle in hay] on strings. *)
Fixpoint contains (needle hay : str) : bool :=
  prefix_of needle hay ||
  match hay with
  | [] => false
  | _ :: hay' => contains needle hay'
  end.

(** [s.split(sep)] for a separator of one code point (the program only splits
    on the delimiter [、]): the result is never empty, and has one more
    segment than [s] has occurrences of [sep]. *)
Fixpoint split (sep : char) (s : str) : list str :=
  match s with
  | [] => [[]]
  | c :: s' =>
    if (c =? sep)%N then [] :: split sep s'
    else match split sep s' with
         | seg :: segs => (c :: seg) :: segs
         | [] => [[c]]
         end
  end.

(** [sep.join(l)]. *)
Fixpoint join (sep : str) (l : list str) : str :=
  match l with
  | [] => []
  | [x] => x
  | x :: l' => x ++ sep ++ join sep l'
  end.

(** [list(dict.fromkeys(l))]: a dict keeps its keys in insertion order and
    inserting a key that is present leaves its position unchanged, so every
    element is kept at its first occurrence. [seen] is the dict built so
    far. *)
Fixpoint fromkeys_from (seen : list str) (l : list str) : list str :=
  match l with
  | [] => seen
  | x :: l' =>
    if bool_decide (x ∈ seen) then fromkeys_from seen l'
    else fromkeys_from (seen ++ [x]) l'
  end.

Definition dict_fromkeys (l : list str) : list str := fromkeys_from [] l.

(** The specification's words for the same operation, "deduplicate
    preserving first-seen order", to compare [dict_fromkeys] with: the head
    stays, and is removed from what follows. *)
Fixpoint dedup_first_seen (l : list str) : list str :=
  match l with
  | [] => []
  | x :: l' => x :: filter (λ y, y ≠ x) (dedup_first_seen l')
  end.

(** *** Character classes of [re] on str patterns (Unicode matching)

    [\d] is any character of category Nd and [\s] any Unicode whitespace; the
    tables are those of CPython 3.11 (Unicode 14.0). Every run of Nd
    characters starts at a digit zero and counts upwards, so the value of a
    digit is its offset in its run modulo ten. *)
Definition in_range (lo hi : N) (c : char) : bool := (lo <=? c)%N && (c <=? hi)%N.

Definition decimal_runs : list (N * N) :=
  [ (0x30, 0x39); (0x660, 0x669); (0x6f0, 0x6f9); (0x7c0, 0x7c9); (0x966, 0x96f);
    (0x9e6, 0x9ef); (0xa66, 0xa6f); (0xae6, 0xaef); (0xb66, 0xb6f); (0xbe6, 0xbef);
    (0xc66, 0xc6f); (0xce6, 0xcef); (0xd66, 0xd6f); (0xde6, 0xdef); (0xe50, 0xe59);
    (0xed0, 0xed9); (0xf20, 0xf29); (0x1040, 0x1049); (0x1090, 0x1099);
    (0x17e0, 0x17e9); (0x1810, 0x1819); (0x1946, 0x194f); (0x19d0, 0x19d9);
    (0x1a80, 0x1a89); (0x1a90, 0x1a99); (0x1b50, 0x1b59); (0x1bb0, 0x1bb9);
    (0x1c40, 0x1c49); (0x1c50, 0x1c59); (0xa620, 0xa629); (0xa8d0, 0xa8d9);
    (0xa900, 0xa909); (0xa9d0, 0xa9d9); (0xa9f0, 0xa9f9); (0xaa50, 0xaa59);
    (0xabf0, 0xabf9); (0xff10, 0xff19); (0x104a0, 0x104a9); (0x10d30, 0x10d39);
    (0x11066, 0x1106f); (0x110f0, 0x110f9); (0x11136, 0x1113f); (0x111d0, 0x111d9);
    (0x112f0, 0x112f9); (0x11450, 0x11459); (0x114d0, 0x114d9); (0x11650, 0x11659);
    (0x116c0, 0x116c9); (0x11730, 0x11739); (0x118e0, 0x118e9); (0x11950, 0x11959);
    (0x11c50, 0x11c59); (0x11d50, 0x11d59); (0x11da0, 0x11da9); (0x16a60, 0x16a69);
    (0x16ac0, 0x16ac9); (0x16b50, 0x16b59); (0x1d7ce, 0x1d7ff); (0x1e140, 0x1e149);
    (0x1e2f0, 0x1e2f9); (0x1e950, 0x1e959); (0x1fbf0, 0x1fbf9) ]%N.

Definition space_runs : list (N * N) :=
  [ (0x9, 0xd); (0x1c, 0x20); (0x85, 0x85); (0xa0, 0xa0); (0x1680, 0x1680);
    (0x2000, 0x200a); (0x2028, 0x2029); (0x202f, 0x202f); (0x205f, 0x205f);
    (0x3000, 0x3000) ]%N.

Definition in_runs (runs : list (N * N)) (c : char) : bool :=
  existsb (fun r => in_range (fst r) (snd r) c) runs.

Definition is_digit (c : char) : bool := in_runs decimal_runs c.
Definition is_space (c : char) : bool := in_runs space_runs c.

Definition digit_value (c : char) : option Z :=
  match filter (fun r => in_range (fst r) (snd r) c = true) decimal_runs with
  | r :: _ => Some (Z.of_N ((c - fst r) mod 10))
  | [] => None
  end.

(** [int(s)] on the strings the program converts: decimal digits, possibly
    preceded by whitespace (which [int] strips); anything else is a
    ValueError, here [None]. *)
Fixpoint int_digits (acc : Z) (s : str) : option Z :=
  match s with
  | [] => Some acc
  | c :: s' =>
    match digit_value c with
    | Some d => int_digits (acc * 10 + d) s'
    | None => None
    end
  end.

Fixpoint lstrip (s : str) : str :=
  match s with
  | c :: s' => if is_space c then lstrip s' else s
  | [] => []
  end.

Definition int (s : str) : option Z :=
  match lstrip s with
  | [] => None
  | ds => int_digits 0 ds
  end.

End PyStr.
Export PyStr.

(* ===================================================================== *)
(** ** The [re] engine *)
(* ===================================================================== *)

(** A backtracking matcher with the priorities of Python's [re]: alternatives
    are tried left to right, a greedy repeat tries the longest count first and
    a lazy one ([*?]) the shortest. The constructs are those the patterns of
    the program and of [strptime] use; a repeat ranges over one character
    class, which is all they need. *)
Module Re.

Inductive regex :=
| Eps
| Chr (p : char → bool)
| Cat (r1 r2 : regex)
| Alt (r1 r2 : regex)
| Grp (r : regex)
| Rep (greedy : bool) (lo : nat) (hi : option nat) (p : char → bool).

Definition seq (rs : list regex) : regex := foldr Cat Eps rs.
Definition one (a : ascii) : regex := Chr (N.eqb (chr a)).
Definition lit (s : str) : regex := seq (map (fun c => Chr (N.eqb c)) s).
Definition set (lo hi : ascii) : regex := Chr (in_range (chr lo) (chr hi)).
Definition dot : char → bool := fun c => negb (c =? 10)%N.

Definition greedy := true.
Definition lazy := false.

(** The state of a match in progress: groups closed so far, in the order they
    closed (which is their number for groups that do not nest), and the text
    that remains. *)
Definition outcome := (list str * str)%type.

Definition may_repeat (hi : option nat) : bool :=
  match hi with Some O => false | _ => true end.

Fixpoint rep (g : bool) (p : char → bool) (lo : nat) (hi : option nat)
    (k : str → option outcome) (s : str) {struct s} : option outcome :=
  if g then
    match
      match s with
      | c :: s' =>
        if p c && may_repeat hi then rep g p (pred lo) (pred <$> hi) k s' else None
      | [] => None
      end
    with
    | Some o => Some o
    | None => match lo with O => k s | S _ => None end
    end
  else
    match match lo with O => k s | S _ => None end with
    | Some o => Some o
    | None =>
      match s with
      | c :: s' =>
        if p c && may_repeat hi then rep g p (pred lo) (pred <$> hi) k s' else None
      | [] => None
      end
    end.

Fixpoint rmatch (r : regex) (k : list str → str → option outcome)
    (caps : list str) (s : str) {struct r} : option outcome :=
  match r with
  | Eps => k caps s
  | Chr p =>
    match s with
    | c :: s' => if p c then k caps s' else None
    | [] => None
    end
  | Cat r1 r2 => rmatch r1 (rmatch r2 k) caps s
  | Alt r1 r2 =>
    match rmatch r1 k caps s with
    | Some o => Some o
    | None => rmatch r2 k caps s
    end
  | Grp r1 =>
    rmatch r1 (fun caps' s' => k (caps' ++ [take (length s - length s') s]) s') caps s
  | Rep g lo hi p => rep g p lo hi (k caps) s
  end.

(** [pattern.match(s)]: a match anchored at the start of [s]. *)
Definition match_ (r : regex) (s : str) : option outcome :=
  rmatch r (fun caps s' => Some (caps, s')) [] s.

(** [re.search(pattern, s)]: the match at the leftmost position that has
    one. *)
Fixpoint search (r : regex) (s : str) : option outcome :=
  match match_ r s with
  | Some o => Some o
  | None =>
    match s with
    | [] => None
    | _ :: s' => search r s'
    end
  end.

(** [m.group(i)] for [i >= 1]. *)
Definition group (m : outcome) (i : nat) : str := nth (pred i) (fst m) [].

(** [re.findall(pattern, s)]: the successive non-overlapping matches, left to
    right, each reported by its groups. [skip] counts the characters of the
    last match that are still to be passed over. *)
Fixpoint findall_from (r : regex) (skip : nat) (s : str) {struct s} : list (list str) :=
  match skip with
  | S n =>
    match s with
    | [] => []
    | _ :: s' => findall_from r n s'
    end
  | O =>
    match match_ r s with
    | Some (caps, rest) =>
      caps :: match s with
              | [] => []
              | _ :: s' => findall_from r (pred (length s - length rest)) s'
              end
    | None =>
      match s with
      | [] => []
      | _ :: s' => findall_from r 0 s'
      end
    end
  end.

Definition findall (r : regex) (s : str) : list (list str) := findall_from r 0 s.

End Re.

(* ===================================================================== *)
(** ** Exceptions *)
(* ===================================================================== *)

Module PyExn.

(** The exceptions that can arise in the modelled code. *)
Inductive exn := ValueError | TypeError | OverflowError | OSError.

Inductive result (A : Type) :=
| Ok (a : A)
| Raise (e : exn).
Arguments Ok {A} a.
Arguments Raise {A} e.

Definition rbind {A B} (m : result A) (f : A → result B) : result B :=
  match m with
  | Ok a => f a
  | Raise e => Raise e
  end.

End PyExn.
Export PyExn.

(* ===================================================================== *)
(** ** [datetime] *)
(* ===================================================================== *)

(** Naive datetimes. The program only builds naive values ([strptime] with a
    format without [%z], [fromtimestamp] without a zone) and writes their
    [isoformat] to the version file. A datetime is represented by its position
    on the proleptic Gregorian time line, in microseconds since
    0001-01-01T00:00:00, which is what [datetime] arithmetic computes with
    (ordinal day, second of the day, microsecond). *)
Module DateTime.

Record datetime := DT { ticks : Z }.
Record timedelta := TD { micros : Z }.

Definition MINYEAR := 1.
Definition MAXYEAR := 9999.
Definition MAXORDINAL := 3652059.
Definition US_PER_SECOND := 1000000.
Definition US_PER_DAY := 86400 * US_PER_SECOND.
Definition MAX_TICKS := MAXORDINAL * US_PER_DAY.

(** The values a [datetime] object can take. *)
Definition in_range_dt (d : datetime) : Prop := 0 ≤ ticks d < MAX_TICKS.

Definition is_leap (y : Z) : bool :=
  (y mod 4 =? 0) && (negb (y mod 100 =? 0) || (y mod 400 =? 0)).

Definition days_before_year (y : Z) : Z :=
  let y' := y - 1 in y' * 365 + y' / 4 - y' / 100 + y' / 400.

Definition days_in_month (y m : Z) : Z :=
  if m =? 2 then (if is_leap y then 29 else 28)
  else if (m =? 4) || (m =? 6) || (m =? 9) || (m =? 11) then 30
  else 31.

Definition DAYS_BEFORE_MONTH (m : Z) : Z :=
  nth (Z.to_nat m) [0; 0; 31; 59; 90; 120; 151; 181; 212; 243; 273; 304; 334] 0.

Definition days_before_month (y m : Z) : Z :=
  DAYS_BEFORE_MONTH m + (if (2 <? m) && is_leap y then 1 else 0).

Definition ymd2ord (y m d : Z) : Z :=
  days_before_year y + days_before_month y m + d.

(** [datetime(year, month, day, hour, minute, second)], with the range checks
    of the constructor. *)
Definition make (y m d hh mm ss : Z) : result datetime :=
  if negb ((MINYEAR <=? y) && (y <=? MAXYEAR)) then Raise ValueError
  else if negb ((1 <=? m) && (m <=? 12)) then Raise ValueError
  else if negb ((1 <=? d) && (d <=? days_in_month y m)) then Raise ValueError
  else if negb ((0 <=? hh) && (hh <=? 23)) then Raise ValueError
  else if negb ((0 <=? mm) && (mm <=? 59)) then Raise ValueError
  else if negb ((0 <=? ss) && (ss <=? 59)) then Raise ValueError
  else Ok (DT (((ymd2ord y m d - 1) * 86400 + hh * 3600 + mm * 60 + ss) * US_PER_SECOND)).

(** [timedelta(hours=n)] *)
Definition hours (n : Z) : timedelta := TD (n * 3600 * US_PER_SECOND).

(** [a - b] on two naive datetimes. *)
Definition sub (a b : datetime) : timedelta := TD (ticks a - ticks b).

(** [a < b] on two naive datetimes. *)
Definition lt (a b : datetime) : Prop := ticks a < ticks b.

(** [a + d]: OverflowError when the result leaves years 1..9999. *)
Definition add (a : datetime) (d : timedelta) : result datetime :=
  let t := ticks a + micros d in
  if (0 <=? t) && (t <? MAX_TICKS) then Ok (DT t) else Raise OverflowError.

(** [a - d] *)
Definition sub_delta (a : datetime) (d : timedelta) : result datetime :=
  add a (TD (- micros d)).

(** The test [d.total_seconds() > secs] for an integer [secs] of at most a
    few days. [total_seconds] is the correctly rounded float quotient of
    the microseconds by 10^6; rounding is monotone, [secs] is a float, and
    the quotient of [secs * 10^6 + 1] rounds to a float above [secs], so the
    float test decides the comparison of the integers. *)
Definition total_seconds_gt (d : timedelta) (secs : Z) : bool :=
  secs * US_PER_SECOND <? micros d.

(** *** Calendar fields and [isoformat] *)

Definition ord2ymd (ord : Z) : Z * Z * Z :=
  let n := ord - 1 in
  let n400 := n / 146097 in let n := n mod 146097 in
  let n100 := n / 36524 in let n := n mod 36524 in
  let n4 := n / 1461 in let n := n mod 1461 in
  let n1 := n / 365 in let n := n mod 365 in
  let year := n400 * 400 + 1 + n100 * 100 + n4 * 4 + n1 in
  if (n1 =? 4) || (n100 =? 4) then (year - 1, 12, 31)
  else
    let leapyear := (n1 =? 3) && (negb (n4 =? 24) || (n100 =? 3)) in
    let month := Z.shiftr (n + 50) 5 in
    let preceding := DAYS_BEFORE_MONTH month + (if (2 <? month) && leapyear then 1 else 0) in
    if n <? preceding then
      let month' := month - 1 in
      let preceding' :=
        preceding - (nth (Z.to_nat month') [0; 31; 28; 31; 30; 31; 30; 31; 31; 30; 31; 30; 31] 0
                     + (if (month' =? 2) && leapyear then 1 else 0)) in
      (year, month', n - preceding' + 1)
    else (year, month, n - preceding + 1).

(** The decimal digits of [n], least significant last, on exactly [w]
    places: [%0wd] for [0 <= n < 10^w]. *)
Fixpoint zero_padded (w : nat) (n : Z) : str :=
  match w with
  | O => []
  | S w' => zero_padded w' (n / 10) ++ [(48 + Z.to_N (n mod 10))%N]
  end.

Definition isoformat (d : datetime) : str :=
  let t := ticks d in
  let us := t mod US_PER_SECOND in
  let s := t / US_PER_SECOND in
  let '(y, m, dd) := ord2ymd (s / 86400 + 1) in
  let sod := s mod 86400 in
  zero_padded 4 y ++ [chr "-"] ++ zero_padded 2 m ++ [chr "-"] ++ zero_padded 2 dd
    ++ [chr "T"] ++ zero_padded 2 (sod / 3600) ++ [chr ":"]
    ++ zero_padded 2 (sod mod 3600 / 60) ++ [chr ":"] ++ zero_padded 2 (sod mod 60)
    ++ (if us =? 0 then [] else chr "." :: zero_padded 6 us).

(** *** [datetime.strptime(s, '%Y/%m/%d %H:%M:%S')]

    [_strptime] turns the format into a regular expression, one group per
    directive and [\s+] for the blank, matches it at the start of the text
    (ignoring case, which changes nothing for digits, [/] and [:]), rejects
    text that is left over, converts the groups with [int] and calls the
    constructor. *)
Import Re.

Definition digit : regex := Chr is_digit.

Definition directive_Y : regex := Grp (seq [digit; digit; digit; digit]).
Definition directive_m : regex :=
  Grp (Alt (seq [one "1"; set "0" "2"]) (Alt (seq [one "0"; set "1" "9"]) (set "1" "9"))).
Definition directive_d : regex :=
  Grp (Alt (seq [one "3"; set "0" "1"])
      (Alt (seq [set "1" "2"; digit])
      (Alt (seq [one "0"; set "1" "9"])
      (Alt (set "1" "9") (seq [one " "; set "1" "9"]))))).
Definition directive_H : regex :=
  Grp (Alt (seq [one "2"; set "0" "3"]) (Alt (seq [set "0" "1"; digit]) digit)).
Definition directive_M : regex :=
  Grp (Alt (seq [set "0" "5"; digit]) digit).
Definition directive_S : regex :=
  Grp (Alt (seq [one "6"; set "0" "1"]) (Alt (seq [set "0" "5"; digit]) digit)).

Definition format_regex : regex :=
  seq [directive_Y; one "/"; directive_m; one "/"; directive_d;
       Rep greedy 1 None is_space;
       directive_H; one ":"; directive_M; one ":"; directive_S].

Definition of_int (o : option Z) : result Z :=
  match o with Some z => Ok z | None => Raise ValueError end.

Definition strptime (s : str) : result datetime :=
  match match_ format_regex s with
  | None => Raise ValueError
  | Some (_ :: _, _ :: _) => Raise ValueError
  | Some ([gY; gm; gd; gH; gM; gS], []) =>
    rbind (of_int (int gY)) (fun y =>
    rbind (of_int (int gm)) (fun m =>
    rbind (of_int (int gd)) (fun d =>
    rbind (of_int (int gH)) (fun hh =>
    rbind (of_int (int gM)) (fun mm =>
    rbind (of_int (int gS)) (fun ss =>
    make y m d hh mm ss))))))
  | Some _ => Raise ValueError
  end.

End DateTime.

Import Re DateTime.

(* ===================================================================== *)
(** ** The world outside the program *)
(* ===================================================================== *)

(** What the program reaches through [requests], the file system and the
    browser. Nothing is assumed of it: the answers of the search API and the
    fate of each write are arbitrary, and may change from one call to the
    next. *)
Module World.

(** A value of the JSON object in [version.json]: the program stores ISO
    strings, a file written by hand can hold anything else. *)
Inductive json := JString (s : str) | JOther.

(** The fields [_fetch_version_start_time] reads from the reply. *)
Record api_post := ApiPost { subject : str; created_at : Z }.

Inductive api_response :=
| ApiFailure           (* the request, its decoding or the access to a field raised *)
| ApiReply (retcode : Z) (posts : list api_post). (* data['retcode'], data['data']['list'] *)

Inductive write_outcome :=
| Written        (* the file now holds the dumped object *)
| WriteRefused   (* [open] raised: the file is as before *)
| WriteBroken.   (* the dump raised after [open] truncated the file *)

Record env := Env {
  (** [datetime.fromisoformat]: [None] when it raises ValueError *)
  fromisoformat : str → option datetime;
  (** [datetime.fromtimestamp], in the zone of the machine: [None] when it raises *)
  fromtimestamp : Z → option datetime;
  (** the reply to the [n]-th request of the run, by URL *)
  http_get : nat → str → api_response;
  (** the fate of the [n]-th write of the run to [version.json] *)
  disk_write : nat → write_outcome;
}.

Record world := World {
  (** the object in [version.json]; [None]: no file, or not JSON *)
  version_file : option (gmap str json);
  (** the URLs requested so far, oldest first *)
  requests : list str;
  (** attempts to write [version.json], and those that succeeded *)
  write_attempts : nat;
  writes : nat;
}.

(** Computations that read and change the world and may raise. What was
    done before an exception stays done. *)
Definition M (A : Type) : Type := world → result A * world.

Definition ret {A} (a : A) : M A := fun w => (Ok a, w).
Definition raise {A} (e : exn) : M A := fun w => (Raise e, w).
Definition bind {A B} (m : M A) (f : A → M B) : M B :=
  fun w => match m w with
           | (Ok a, w') => f a w'
           | (Raise e, w') => (Raise e, w')
           end.
Definition lift {A} (r : result A) : M A := fun w => (r, w).

(** [try: m  except Exception as e: h e] *)
Definition try_except {A} (m : M A) (h : exn → M A) : M A :=
  fun w => match m w with
           | (Ok a, w') => (Ok a, w')
           | (Raise e, w') => h e w'
           end.

End World.
Export World.

Declare Scope py_scope.
Delimit Scope py_scope with py.
Notation "x <- m ;; k" := (bind m (fun x => k))
  (at level 100, m at next level, right associativity) : py_scope.
Notation "m ;;; k" := (bind m (fun _ => k))
  (at level 100, right associativity) : py_scope.

(* ===================================================================== *)
(** ** [main.py] *)
(* ===================================================================== *)

(** *** Constants *)

Definition API_BASE_URL : str := py "https://bbs-api.miyoushe.com/painter/wapi/searchPosts".

(** [r'\[(.*?)\((.*?)\)\]'] *)
Definition AGENTS_PATTERN : regex :=
  seq [one "["; Grp (Rep lazy 0 None dot); one "("; Grp (Rep lazy 0 None dot);
       one ")"; one "]"].

(** [\d{4}/\d{1,2}/\d{1,2}\s+\d{1,2}:\d{2}:\d{2}], the timestamp both time
    patterns capture. *)
Definition STAMP : regex :=
  seq [Rep greedy 4 (Some 4%nat) is_digit; one "/";
       Rep greedy 1 (Some 2%nat) is_digit; one "/";
       Rep greedy 1 (Some 2%nat) is_digit;
       Rep greedy 1 None is_space;
       Rep greedy 1 (Some 2%nat) is_digit; one ":";
       Rep greedy 2 (Some 2%nat) is_digit; one ":";
       Rep greedy 2 (Some 2%nat) is_digit].

(** [(STAMP)\s*~\s*(STAMP)] *)
Definition TIME_PATTERN : regex :=
  seq [Grp STAMP; Rep greedy 0 None is_space; one "~"; Rep greedy 0 None is_space;
       Grp STAMP].

(** [(\d+\.\d+)版本更新后\s*~\s*(STAMP)] *)
Definition VERSION_PATTERN : regex :=
  seq [Grp (seq [Rep greedy 1 None is_digit; one "."; Rep greedy 1 None is_digit]);
       lit (py "版本更新后");
       Rep greedy 0 None is_space; one "~"; Rep greedy 0 None is_space;
       Grp STAMP].

(** The delimiter of titles, ['、']. *)
Definition DELIM : char := 0x3001%N.

(** *** Events: the dicts with keys title, start_time, end_time, description *)

Record event := Event {
  title : str;
  start_time : datetime;
  end_time : datetime;
  description : str;
}.

Definition set_title (t : str) (e : event) : event :=
  {| title := t; start_time := start_time e; end_time := end_time e;
     description := description e |}.

(** *** PostCrawler *)

(** What the browser shows for a post: [parse_post_content] reads the title
    and the content with [_get_element_text], which gives [''] for an element
    it cannot find; loading the page or waiting for the content may raise. *)
Inductive page :=
| PageError
| Page (page_title page_content : str).

Section PostCrawler.

Context (E : env).
Local Open Scope py_scope.

(** [_is_valid_post_content] *)
Definition _is_valid_post_content (title description : str) : bool :=
  if contains (py "音擎") description then false
  else if negb (contains (py "代理人") description) then false
  else true.

(** [f"{match[0]}({match[1]})"], for the tuple of groups that [findall]
    gives for a match. *)
Definition agent_text (m : list str) : str :=
  nth 0 m [] ++ py "(" ++ nth 1 m [] ++ py ")".

(** [_extract_agents_title] *)
Definition _extract_agents_title (description : str) : option str :=
  let agents_matches := findall AGENTS_PATTERN description in
  match agents_matches with
  | _ :: _ =>
    let unique_agents := dict_fromkeys (map agent_text agents_matches) in
    Some (join [DELIM] unique_agents)
  | [] => None
  end.

(** [_load_version_data] *)
Definition _load_version_data : M (gmap str json) :=
  fun w => (Ok (default ∅ (version_file w)), w).

(** [_fetch_version_start_time] *)
Definition _fetch_version_start_time (version : str) : M (option datetime) :=
  try_except
    (fun w =>
       let api_url :=
         API_BASE_URL ++ py "?keyword=【绝区零绳网情报站】" ++ version ++ py "版本&size=1" in
       let w' := {| version_file := version_file w;
                    requests := requests w ++ [api_url];
                    write_attempts := write_attempts w;
                    writes := writes w |} in
       match http_get E (length (requests w)) api_url with
       | ApiFailure => (Raise OSError, w')
       | ApiReply retcode posts =>
         if retcode =? 0 then
           match posts with
           | post :: _ =>
             if contains (py "【绝区零绳网情报站】" ++ version ++ py "版本") (subject post)
             then match fromtimestamp E (created_at post) with
                  | Some t => (Ok (Some t), w')
                  | None => (Raise OverflowError, w')
                  end
             else (Ok None, w')
           | [] => (Ok None, w')
           end
         else (Ok None, w')
       end)
    (fun _ => ret None).

(** [_save_version_data]: the entry is put into the loaded object, which is
    then dumped as a whole; a failure is logged, not raised. *)
Definition _save_version_data (version : str) (start_time : datetime)
    (version_data : gmap str json) : M unit :=
  fun w =>
    let version_data' := <[version := JString (isoformat start_time)]> version_data in
    match disk_write E (write_attempts w) with
    | Written =>
      (Ok tt, {| version_file := Some version_data'; requests := requests w;
                 write_attempts := S (write_attempts w); writes := S (writes w) |})
    | WriteRefused =>
      (Ok tt, {| version_file := version_file w; requests := requests w;
                 write_attempts := S (write_attempts w); writes := writes w |})
    | WriteBroken =>
      (Ok tt, {| version_file := None; requests := requests w;
                 write_attempts := S (write_attempts w); writes := writes w |})
    end.

(** [_get_version_start_time] *)
Definition _get_version_start_time (version : str) : M (option datetime) :=
  try_except
    (version_data <- _load_version_data ;;
     match version_data !! version with
     | Some cached =>
       match cached with
       | JString s =>
         match fromisoformat E s with
         | Some t => ret (Some t)
         | None => raise ValueError
         end
       | JOther => raise TypeError
       end
     | None =>
       start_time <- _fetch_version_start_time version ;;
       match start_time with
       | Some t => (_save_version_data version t version_data ;;; ret (Some t))
       | None => ret None
       end
     end)
    (fun _ => ret None).

(** [_parse_direct_time] *)
Definition _parse_direct_time (time_match : outcome) : result (datetime * datetime) :=
  rbind (strptime (group time_match 1)) (fun start_time =>
  rbind (strptime (group time_match 2)) (fun end_time =>
  Ok (start_time, end_time))).

(** [_parse_version_time]: the end is parsed before the [try]. *)
Definition _parse_version_time (version_match : outcome) : M (option (datetime * datetime)) :=
  let version := group version_match 1 in
  end_time <- lift (strptime (group version_match 2)) ;;
  try_except
    (start_time <- _get_version_start_time version ;;
     match start_time with
     | Some t => ret (Some (t, end_time))
     | None => ret None
     end)
    (fun _ => ret None).

(** [_extract_event_time] *)
Definition _extract_event_time (description : str) : M (option (datetime * datetime)) :=
  match search TIME_PATTERN description with
  | Some time_match =>
    (r <- lift (_parse_direct_time time_match) ;; ret (Some r))
  | None =>
    match search VERSION_PATTERN description with
    | Some version_match => _parse_version_time version_match
    | None => ret None
    end
  end.

(** [a or b] where [a] is [None] or a str: an empty str is false too. *)
Definition or_else (a : option str) (b : str) : str :=
  match a with
  | Some (c :: t) => c :: t
  | _ => b
  end.

(** [parse_post_content], from the loaded page on. Every exception is
    caught and gives [None]. *)
Definition parse_post_content (p : page) : world → option event * world :=
  fun w =>
    match p with
    | PageError => (None, w)
    | Page title description =>
      match description with
      | [] => (None, w)
      | _ :: _ =>
        if negb (_is_valid_post_content title description) then (None, w)
        else
          let title := or_else (_extract_agents_title description) title in
          match _extract_event_time description w with
          | (Ok (Some event_time), w') =>
            (Some {| title := title;
                     start_time := fst event_time;
                     end_time := snd event_time;
                     description := [] |}, w')
          | (Ok None, w') => (None, w')
          | (Raise _, w') => (None, w')
          end
      end
    end.

End PostCrawler.

(** *** ICSGenerator *)

(** A component of the calendar: the properties [add_event] sets. *)
Record entry := Entry {
  summary : str;
  dtstart : datetime;
  dtend : datetime;
  entry_description : str;
  tzid : str;
}.

(** The calendar: the properties set by [__init__], and the components in
    the order they were added. *)
Record calendar := Calendar {
  properties : list (str * str);
  components : list entry;
}.

Definition add_component (e : entry) (c : calendar) : calendar :=
  {| properties := properties c; components := components c ++ [e] |}.

(** [ICSGenerator.__init__] *)
Definition new_calendar : calendar :=
  {| properties :=
       [ (py "prodid", py "-//米哈游绝区零调频活动日历//CN");
         (py "version", py "2.0");
         (py "x-wr-calname", py "绝区零调频活动");
         (py "x-wr-timezone", py "Asia/Shanghai") ];
     components := [] |}.

(** [add_event]. An exception leaves the method, is logged, and the components
    added before it stay in the calendar. *)
Definition add_event (event_data : event) (c : calendar) : calendar :=
  let start_time := start_time event_data in
  let end_time := end_time event_data in
  let duration := sub end_time start_time in
  if total_seconds_gt duration (24 * 3600) then
    match add start_time (hours 1) with
    | Raise _ => c
    | Ok start_dtend =>
      let start_event :=
        {| summary := title event_data ++ py " 开始";
           dtstart := start_time;
           dtend := start_dtend;
           entry_description := description event_data;
           tzid := py "Asia/Shanghai" |} in
      let c1 := add_component start_event c in
      match sub_delta end_time (hours 1) with
      | Raise _ => c1
      | Ok end_dtstart =>
        let end_event :=
          {| summary := title event_data ++ py " 结束";
             dtstart := end_dtstart;
             dtend := end_time;
             entry_description := description event_data;
             tzid := py "Asia/Shanghai" |} in
        add_component end_event c1
      end
    end
  else
    let event :=
      {| summary := title event_data;
         dtstart := start_time;
         dtend := end_time;
         entry_description := description event_data;
         tzid := py "Asia/Shanghai" |} in
    add_component event c.

(** *** merge_events *)

(** A dict whose order matters: the keys in insertion order, each once. *)
Module ODict.
Section ODict.
Context {K V : Type} `{EqDecision K}.

Definition odict := list (K * V).

(** [d.get(k)] *)
Fixpoint get (k : K) (d : odict) : option V :=
  match d with
  | [] => None
  | (k', v) :: d' => if decide (k = k') then Some v else get k d'
  end.

(** [d[k] = v]: a new key goes last, a present key keeps its place. *)
Fixpoint set (k : K) (v : V) (d : odict) : odict :=
  match d with
  | [] => [(k, v)]
  | (k', v') :: d' =>
    if decide (k = k') then (k', v) :: d' else (k', v') :: set k v d'
  end.

Definition keys (d : odict) : list K := map fst d.

End ODict.
End ODict.

Definition time_key (e : event) : str * str :=
  (isoformat (start_time e), isoformat (end_time e)).

(** One turn of the loop of [merge_events]. *)
Definition merge_step (events_by_time : list ((str * str) * event)) (e : event)
    : list ((str * str) * event) :=
  let time_key := time_key e in
  match ODict.get time_key events_by_time with
  | None => ODict.set time_key e events_by_time
  | Some existing =>
    let existing_titles := split DELIM (title existing) in
    let new_titles := split DELIM (title e) in
    let all_titles := dict_fromkeys (existing_titles ++ new_titles) in
    ODict.set time_key (set_title (join [DELIM] all_titles) existing) events_by_time
  end.

(** [merge_events]. The dict holds the event objects of the input
    themselves and the loop rewrites their titles in place; the dict that is
    returned is the same as with copies, since a title that already went
    into an entry adds no new segment to it. *)
Definition merge_events (events : list event) : list ((str * str) * event) :=
  foldl merge_step [] events.

(** *** The merge, key by key

    What [merge_events] does to the events of one window, for the statements
    below: the title of the entry after one more event, and the entry for a
    window given its events in input order. *)
Definition merge_titles (existing : str) (e : event) : str :=
  join [DELIM] (dict_fromkeys (split DELIM existing ++ split DELIM (title e))).

Definition merge_group (g : list event) : option event :=
  match g with
  | [] => None
  | e0 :: es => Some (set_title (foldl merge_titles (title e0) es) e0)
  end.

Definition window (k : str * str) (events : list event) : list event :=
  filter (λ e, time_key e = k) events.

(** The segments of a title. *)
Definition segments (e : event) : list str := split DELIM (title e).

(** *** A concrete world for running the program *)

Module Sample.

(** [fromisoformat] on the form [isoformat] writes for a whole second,
    [YYYY-MM-DDTHH:MM:SS]. *)
Definition iso_regex : regex :=
  let d := set "0" "9" in
  seq [Grp (seq [d; d; d; d]); one "-"; Grp (seq [d; d]); one "-"; Grp (seq [d; d]);
       one "T"; Grp (seq [d; d]); one ":"; Grp (seq [d; d]); one ":"; Grp (seq [d; d])].

Definition fromisoformat (s : str) : option datetime :=
  match match_ iso_regex s with
  | Some ([gY; gm; gd; gH; gM; gS], []) =>
    match int gY, int gm, int gd, int gH, int gM, int gS with
    | Some y, Some m, Some d, Some hh, Some mm, Some ss =>
      match make y m d hh mm ss with
      | Ok t => Some t
      | Raise _ => None
      end
    | _, _, _, _, _, _ => None
    end
  | _ => None
  end.

(** The datetime with the given calendar fields, for fields the
    constructor accepts. *)
Definition at_ (y m d hh mm ss : Z) : datetime :=
  DT (((ymd2ord y m d - 1) * 86400 + hh * 3600 + mm * 60 + ss) * US_PER_SECOND).

(** [fromtimestamp] on a machine in the zone UTC+8. *)
Definition fromtimestamp (ts : Z) : option datetime :=
  let t := ((ymd2ord 1970 1 1 - 1) * 86400 + ts + 8 * 3600) * US_PER_SECOND in
  if (0 <=? t) && (t <? MAX_TICKS) then Some (DT t) else None.

(** A search API that knows the release post of version 1.5, created at
    2024-03-15T12:00:00 in UTC+8. *)
Definition http_get (n : nat) (url : str) : api_response :=
  ApiReply 0 [ApiPost (py "【绝区零绳网情报站】1.5版本前瞻") 1710475200].

Definition E : env :=
  {| World.fromisoformat := fromisoformat;
     World.fromtimestamp := fromtimestamp;
     World.http_get := http_get;
     World.disk_write := fun _ => Written |}.

(** No version file yet, nothing requested, nothing written. *)
Definition w0 : world :=
  {| version_file := None; requests := []; write_attempts := 0; writes := 0 |}.

(** A version file that knows version 1.5. *)
Definition w_cached : world :=
  {| version_file := Some {[ py "1.5" := JString (py "2024-03-15T12:00:00") ]};
     requests := []; write_attempts := 0; writes := 0 |}.

End Sample.

(* ===================================================================== *)
(** ** The rest of the program: the search page and [main] *)
(* ===================================================================== *)

(** The elements of a list, each at its first occurrence: the order in which
    a dict lists the keys put into it. *)
Fixpoint first_seen {A} `{EqDecision A} (l : list A) : list A :=
  match l with
  | [] => []
  | x :: l' => x :: filter (λ y, y ≠ x) (first_seen l')
  end.

(** [s.strip()] *)
Definition strip (s : str) : str := rev (lstrip (rev (lstrip s))).

(** The library keeps its promise on the range of datetimes: what
    [fromisoformat] and [fromtimestamp] return are datetime objects, of the
    years 1 to 9999. *)
Definition env_in_range (E : env) : Prop :=
  (∀ s t, fromisoformat E s = Some t → in_range_dt t) ∧
  (∀ ts t, fromtimestamp E ts = Some t → in_range_dt t).

(** The URL [_fetch_version_start_time] requests for a version, and the text
    it looks for in the subject of the first post of the reply. *)
Definition version_url (version : str) : str :=
  API_BASE_URL ++ py "?keyword=【绝区零绳网情报站】" ++ version ++ py "版本&size=1".

Definition version_marker (version : str) : str :=
  py "【绝区零绳网情报站】" ++ version ++ py "版本".

(** The world after one more request. *)
Definition with_request (w : world) (u : str) : world :=
  {| version_file := version_file w; requests := requests w ++ [u];
     write_attempts := write_attempts w; writes := writes w |}.

(** What the browser and the disk do for a run of [main]. *)
Module Browser.

(** An element of class [mhy-article-card] of the search page: its title
    and link elements are found, or looking for them raises. [href] is what
    [get_attribute('href')] gives, which can be [None]. *)
Inductive card :=
| CardBroken
| Card (card_title : str) (href : option str).

(** Loading the search page and waiting for its cards raises, or shows the
    cards. *)
Inductive search_page :=
| SearchError
| SearchPage (cards : list card).

Record desktop := Desktop {
  (** [PostCrawler()] gets its driver, or raises *)
  driver_starts : bool;
  (** the search page, by URL *)
  show_search : str → search_page;
  (** what loading a URL shows for the [n]-th post of the list (from 0) *)
  show_post : nat → str → page;
  (** [save_ics] can write its file *)
  ics_writable : bool;
}.

End Browser.
Export Browser.

Definition BASE_URL : str := py "https://www.miyoushe.com/zzz/search".

(** The dicts with keys title and url that [get_posts] returns. *)
Record post := Post { post_title : str; url : option str }.

(** How [main] ends: the calendar file is written, or one of the early
    returns is taken, or the constructor of the crawler raised; when
    [save_ics] cannot write, the calendar it had is lost. *)
Inductive run :=
| CrawlerFailed
| NoPosts
| NoEvents
| Saved (c : calendar)
| SaveFailed (c : calendar).

Section Main.

Context (D : desktop) (E : env).

(** [get_posts] *)
Definition get_posts (keyword : str) : list post :=
  match show_search D (BASE_URL ++ py "?keyword=" ++ keyword) with
  | SearchError => []
  | SearchPage article_list =>
    omap (fun article =>
            match article with
            | CardBroken => None
            | Card title_text link => Some {| post_title := strip title_text; url := link |}
            end) article_list
  end.

(** What [parse_post_content(post['url'])] finds in the browser for the
    [n]-th post: a URL of [None] makes [driver.get] raise. *)
Definition page_of (n : nat) (p : post) : page :=
  match url p with
  | Some u => show_post D n u
  | None => PageError
  end.

(** The loop of [main] over the posts, from the [n]-th on. *)
Fixpoint parse_posts (n : nat) (posts : list post) (w : world) : list event * world :=
  match posts with
  | [] => ([], w)
  | p :: posts' =>
    let '(event_data, w1) := parse_post_content E (page_of n p) w in
    let '(events, w2) := parse_posts (S n) posts' w1 in
    (match event_data with
     | Some e => e :: events
     | None => events
     end, w2)
  end.

(** The loop of [main] over [merged_events.values()]. *)
Definition add_events (merged_events : list ((str * str) * event)) (c : calendar) : calendar :=
  foldl (fun c kv => add_event (snd kv) c) c merged_events.

(** [main] *)
Definition main (w : world) : run * world :=
  if negb (driver_starts D) then (CrawlerFailed, w)
  else
    let posts := get_posts (py "调频说明") in
    match posts with
    | [] => (NoPosts, w)
    | _ :: _ =>
      let '(events, w') := parse_posts 0 posts w in
      match events with
      | [] => (NoEvents, w')
      | _ :: _ =>
        let merged_events := merge_events events in
        let c := add_events merged_events new_calendar in
        (if ics_writable D then Saved c else SaveFailed c, w')
      end
    end.

End Main.

(** A card in which [get_posts] finds both elements. *)
Definition card_found (c : card) : bool :=
  match c with
  | Card _ _ => true
  | CardBroken => false
  end.

(** A run on a search page with three cards: a banner of version 1.5 given
    relative to the version, a banner of the same window given directly, and
    an engine banner. *)
Module SampleRun.

Definition banner_a : str :=
  py "限时调频 代理人 [艾莲(冰)] 1.5版本更新后 ~ 2024/4/1 10:00:00".
Definition banner_b : str :=
  py "限时调频 代理人 [丽娜(电)] 2024/3/15 12:00:00 ~ 2024/4/1 10:00:00".
Definition banner_engine : str :=
  py "限时调频 音擎 代理人 2024/3/15 12:00:00 ~ 2024/4/1 10:00:00".

Definition D : desktop :=
  {| driver_starts := true;
     show_search := fun _ =>
       SearchPage [Card (py " 调频说明 A ") (Some (py "https://a"));
                   CardBroken;
                   Card (py "调频说明 B") (Some (py "https://b"));
                   Card (py "调频说明 C") (Some (py "https://c"))];
     show_post := fun _ u =>
       if bool_decide (u = py "https://a") then Page (py "A") banner_a
       else if bool_decide (u = py "https://b") then Page (py "B") banner_b
       else Page (py "C") banner_engine;
     ics_writable := true |}.

End SampleRun.

(* ===================================================================== *)
(** ** Strings: split, join and first-seen deduplication *)
(* ===================================================================== *)

Section StringLemmas.

Implicit Types (s seg : str) (l seen segs : list str) (sep : char).

Lemma split_nonempty sep s : split sep s ≠ [].
Proof.
  destruct s as [|c s]; simpl; [done|].
  destruct (c =? sep)%N; [done|]. by destruct (split sep s).
Qed.

Lemma split_no_sep sep s seg : seg ∈ split sep s → sep ∉ seg.
Proof.
  revert seg. induction s as [|c s IH]; simpl; intros seg Hin.
  - apply list_elem_of_singleton in Hin as ->. apply not_elem_of_nil.
  - destruct (N.eqb_spec c sep) as [->|Hne].
    + apply elem_of_cons in Hin as [->|Hin]; [apply not_elem_of_nil | by apply IH].
    + destruct (split sep s) as [|seg0 segs] eqn:Hs.
      * apply list_elem_of_singleton in Hin as ->.
        intros [->|H]%elem_of_cons; [done | by apply not_elem_of_nil in H].
      * apply elem_of_cons in Hin as [->|Hin].
        -- intros [->|H]%elem_of_cons; [done|].
           revert H. apply IH. apply elem_of_cons. by left.
        -- apply IH. apply elem_of_cons. by right.
Qed.

Lemma split_without_sep sep s : sep ∉ s → split sep s = [s].
Proof.
  induction s as [|c s IH]; simpl; intros Hnot; [done|].
  destruct (N.eqb_spec c sep) as [->|Hne].
  - exfalso. apply Hnot. apply elem_of_cons. by left.
  - rewrite IH; [done|]. intros H. apply Hnot. apply elem_of_cons. by right.
Qed.

Lemma split_app_sep sep s s' : sep ∉ s → split sep (s ++ sep :: s') = s :: split sep s'.
Proof.
  induction s as [|c s IH]; simpl; intros Hnot.
  - by rewrite N.eqb_refl.
  - destruct (N.eqb_spec c sep) as [->|Hne].
    + exfalso. apply Hnot. apply elem_of_cons. by left.
    + rewrite IH; [done|]. intros H. apply Hnot. apply elem_of_cons. by right.
Qed.

(** Splitting a joined list gives the list back, when no segment holds the
    delimiter. *)
Lemma split_join sep segs :
  segs ≠ [] → (∀ seg, seg ∈ segs → sep ∉ seg) → split sep (join [sep] segs) = segs.
Proof.
  induction segs as [|x segs IH]; [done|]. intros _ Hno.
  destruct segs as [|y segs].
  - simpl. apply split_without_sep. apply Hno. apply elem_of_cons. by left.
  - change (join [sep] (x :: y :: segs)) with (x ++ sep :: join [sep] (y :: segs)).
    rewrite split_app_sep.
    + f_equal. apply IH; [done|]. intros seg Hin. apply Hno. apply elem_of_cons. by right.
    + apply Hno. apply elem_of_cons. by left.
Qed.

(** Joining the segments of a string gives the string back. *)
Lemma join_split sep s : join [sep] (split sep s) = s.
Proof.
  induction s as [|c s IH]; simpl; [done|].
  destruct (N.eqb_spec c sep) as [->|Hne].
  - pose proof (split_nonempty sep s) as Hne.
    destruct (split sep s) as [|y segs]; [done|].
    change (join [sep] ([] :: y :: segs)) with (sep :: join [sep] (y :: segs)).
    by rewrite IH.
  - destruct (split sep s) as [|y segs] eqn:Hs; [by apply split_nonempty in Hs|].
    destruct segs as [|z segs]; simpl in *; by rewrite <- IH.
Qed.

Lemma fromkeys_from_app seen l l' :
  fromkeys_from seen (l ++ l') = fromkeys_from (fromkeys_from seen l) l'.
Proof.
  revert seen. induction l as [|x l IH]; intros seen; simpl; [done|].
  case_bool_decide; apply IH.
Qed.

Lemma fromkeys_from_elem seen l x : x ∈ fromkeys_from seen l ↔ x ∈ seen ∨ x ∈ l.
Proof.
  revert seen. induction l as [|y l IH]; intros seen; simpl.
  - split; [by left | intros [H|H]; [done | by apply not_elem_of_nil in H]].
  - case_bool_decide as Hy; rewrite IH.
    + rewrite elem_of_cons. split; [intros [H|H]; auto | intros [H|[->|H]]; auto].
    + rewrite elem_of_app, list_elem_of_singleton, elem_of_cons. tauto.
Qed.

Lemma fromkeys_from_NoDup seen l : NoDup seen → NoDup (fromkeys_from seen l).
Proof.
  revert seen. induction l as [|y l IH]; intros seen Hnd; simpl; [done|].
  case_bool_decide as Hy; apply IH; [done|].
  apply NoDup_app. split_and!; [done | | apply NoDup_singleton].
  intros x Hx ->%list_elem_of_singleton. done.
Qed.

Lemma fromkeys_from_seen seen l : (∀ x, x ∈ l → x ∈ seen) → fromkeys_from seen l = seen.
Proof.
  revert seen. induction l as [|y l IH]; intros seen Hall; simpl; [done|].
  rewrite bool_decide_eq_true_2 by (apply Hall, elem_of_cons; by left).
  apply IH. intros x Hx. apply Hall, elem_of_cons. by right.
Qed.

Lemma fromkeys_from_fresh seen l : NoDup (seen ++ l) → fromkeys_from seen l = seen ++ l.
Proof.
  revert seen. induction l as [|y l IH]; intros seen Hnd; simpl.
  - by rewrite app_nil_r.
  - apply NoDup_app in Hnd as Hnd'. destruct Hnd' as (Hs & Hdisj & Hl).
    rewrite bool_decide_eq_false_2.
    + rewrite IH; [by rewrite <- app_assoc|]. by rewrite <- app_assoc.
    + intros Hy. apply (Hdisj y Hy). apply elem_of_cons. by left.
Qed.

Lemma dict_fromkeys_elem l x : x ∈ dict_fromkeys l ↔ x ∈ l.
Proof.
  unfold dict_fromkeys. rewrite fromkeys_from_elem. split; [|by right].
  intros [H|H]; [by apply not_elem_of_nil in H | done].
Qed.

Lemma dict_fromkeys_NoDup l : NoDup (dict_fromkeys l).
Proof. apply fromkeys_from_NoDup, NoDup_nil_2. Qed.

Lemma dict_fromkeys_id l : NoDup l → dict_fromkeys l = l.
Proof. intros H. unfold dict_fromkeys. by rewrite fromkeys_from_fresh. Qed.

Lemma dict_fromkeys_nonempty l : l ≠ [] → dict_fromkeys l ≠ [].
Proof.
  destruct l as [|x l]; [done|]. intros _ Heq.
  assert (x ∈ dict_fromkeys (x :: l)) as Hx by (apply dict_fromkeys_elem, elem_of_cons; by left).
  rewrite Heq in Hx. by apply not_elem_of_nil in Hx.
Qed.

Lemma fromkeys_from_dedup seen l :
  fromkeys_from seen l = seen ++ filter (λ y, y ∉ seen) (dedup_first_seen l).
Proof.
  revert seen. induction l as [|x l IH]; intros seen; simpl.
  - by rewrite app_nil_r.
  - case_bool_decide as Hx.
    + rewrite IH. f_equal. rewrite filter_cons_False by (intros H; by apply H).
      rewrite list_filter_filter. apply list_filter_iff. intros y. split; [|tauto].
      intros Hy. split; [done|]. by intros ->.
    + rewrite IH. rewrite filter_cons_True by done.
      rewrite <- app_assoc. f_equal. simpl. f_equal.
      rewrite list_filter_filter. apply list_filter_iff. intros y.
      rewrite elem_of_app, list_elem_of_singleton. tauto.
Qed.

Lemma dict_fromkeys_dedup l : dict_fromkeys l = dedup_first_seen l.
Proof.
  unfold dict_fromkeys. rewrite fromkeys_from_dedup. simpl.
  induction (dedup_first_seen l) as [|y l' IH]; [done|].
  rewrite filter_cons_True by apply not_elem_of_nil. by rewrite IH.
Qed.

End StringLemmas.

(* ===================================================================== *)
(** ** Datetimes stay in the range of the type *)
(* ===================================================================== *)

Ltac month_case :=
  repeat match goal with
  | |- context [DAYS_BEFORE_MONTH ?k] =>
    let v := eval vm_compute in (DAYS_BEFORE_MONTH k) in
    change (DAYS_BEFORE_MONTH k) with v
  | |- context [?a <? ?b] =>
    let v := eval vm_compute in (a <? b) in change (a <? b) with v
  | H : context [?a =? ?b] |- _ =>
    let v := eval vm_compute in (a =? b) in change (a =? b) with v in H
  end;
  cbn [andb orb negb] in *; lia.

Lemma day_of_year_bounds y m d :
  1 ≤ m ≤ 12 → 1 ≤ d ≤ days_in_month y m →
  1 ≤ days_before_month y m + d ≤ (if is_leap y then 366 else 365).
Proof.
  intros Hm Hd.
  assert (m = 1 ∨ m = 2 ∨ m = 3 ∨ m = 4 ∨ m = 5 ∨ m = 6 ∨ m = 7 ∨ m = 8 ∨
          m = 9 ∨ m = 10 ∨ m = 11 ∨ m = 12) as Hcases by lia.
  unfold days_before_month, days_in_month in *.
  destruct (is_leap y);
    repeat (destruct Hcases as [->|Hcases]; [month_case|]); subst; month_case.
Qed.

Lemma ymd2ord_bounds y m d :
  MINYEAR ≤ y ≤ MAXYEAR → 1 ≤ m ≤ 12 → 1 ≤ d ≤ days_in_month y m →
  1 ≤ ymd2ord y m d ≤ MAXORDINAL.
Proof.
  unfold MINYEAR, MAXYEAR.
  intros Hy Hm Hd. pose proof (day_of_year_bounds y m d Hm Hd) as Hdoy.
  unfold ymd2ord, MAXORDINAL. rewrite <- Z.add_assoc.
  assert (y = 9999 ∨ y ≤ 9998) as [->|Hy'] by lia.
  - change (is_leap 9999) with false in Hdoy. cbv iota in Hdoy.
    change (days_before_year 9999) with 3651694. lia.
  - unfold days_before_year. cbv zeta.
    destruct (is_leap y); cbv iota in Hdoy; Z.div_mod_to_equations; lia.
Qed.

(** What the constructor accepts is a datetime of the years 1 to 9999. *)
Lemma make_in_range y m d hh mm ss t :
  make y m d hh mm ss = Ok t → in_range_dt t.
Proof.
  unfold make.
  repeat match goal with
         | |- context [negb (?a && ?b)] =>
           let H1 := fresh "H" in let H2 := fresh "H" in
           destruct a eqn:H1; [destruct b eqn:H2; [|done] | done]; cbn [andb negb]
         end.
  intros [= <-].
  repeat match goal with H : (_ <=? _) = true |- _ => apply Z.leb_le in H end.
  assert (1 ≤ ymd2ord y m d ≤ MAXORDINAL) as Hord by (apply ymd2ord_bounds; lia).
  revert Hord. unfold in_range_dt, MAX_TICKS, US_PER_DAY, MAXORDINAL, US_PER_SECOND.
  cbn [ticks]. generalize (ymd2ord y m d). intros ord Hord. lia.
Qed.

(** So is every timestamp [strptime] returns. *)
Lemma strptime_in_range s t : strptime s = Ok t → in_range_dt t.
Proof.
  unfold strptime. destruct (match_ format_regex s) as [[caps rest]|]; [|done].
  destruct caps as [|gY [|gm [|gd [|gH [|gM [|gS [|? ?]]]]]]]; destruct rest; try done.
  destruct (int gY); [|done]. destruct (int gm); [|done]. destruct (int gd); [|done].
  destruct (int gH); [|done]. destruct (int gM); [|done]. destruct (int gS); [|done].
  cbn [of_int rbind]. apply make_in_range.
Qed.

(* ===================================================================== *)
(** ** The runtime model on examples *)
(* ===================================================================== *)

Example literals :
  py "音擎" = [0x97F3; 0x64CE]%N ∧ py "代理人" = [0x4EE3; 0x7406; 0x4EBA]%N ∧
  py "、" = [DELIM] ∧
  py "版本更新后" = [0x7248; 0x672C; 0x66F4; 0x65B0; 0x540E]%N.
Proof. by vm_compute. Qed.

Example search_time_leftmost :
  search TIME_PATTERN (py "x12024/3/1 10:00:00~2024/3/22 10:00:001")
  = Some ([py "2024/3/1 10:00:00"; py "2024/3/22 10:00:00"], py "1").
Proof. by vm_compute. Qed.

Example search_version_backtracks :
  search VERSION_PATTERN (py "11.22.33版本更新后~2024/3/22   10:00:00")
  = Some ([py "22.33"; py "2024/3/22   10:00:00"], []).
Proof. by vm_compute. Qed.

Example findall_agents :
  findall AGENTS_PATTERN (py "[艾莲(星见雅)] 和 [丽娜(柳]") = [[py "艾莲"; py "星见雅"]] ∧
  findall AGENTS_PATTERN (py "[x(y(z)]") = [[py "x"; py "y(z"]] ∧
  findall AGENTS_PATTERN (py "[a[b(c)]") = [[py "a[b"; py "c"]] ∧
  findall AGENTS_PATTERN (py "[x(y" ++ [10%N] ++ py "(z)] [p(q)]") = [[py "p"; py "q"]].
Proof. by vm_compute. Qed.

Example strptime_examples :
  strptime (py "2024/3/1 10:00:00") = make 2024 3 1 10 0 0 ∧
  strptime (py "２０２４/3/1  1０:00:00") = make 2024 3 1 10 0 0 ∧
  strptime (py "2024/13/1 10:00:00") = Raise ValueError ∧
  strptime (py "2024/３/1 10:00:00") = Raise ValueError ∧
  strptime (py "2024/2/30 10:00:00") = Raise ValueError ∧
  strptime (py "0000/1/1 10:00:00") = Raise ValueError ∧
  strptime (py "2024/3/1 24:00:00") = Raise ValueError ∧
  strptime (py "2024/3/1 10:00:60") = Raise ValueError.
Proof. by vm_compute. Qed.

Example isoformat_example :
  (isoformat <$> Sample.fromtimestamp 1710475200) = Some (py "2024-03-15T12:00:00") ∧
  Sample.fromisoformat (py "2024-03-15T12:00:00") = Sample.fromtimestamp 1710475200.
Proof. by vm_compute. Qed.

(* ===================================================================== *)
(** ** PostCrawler: the gate, the two time patterns, the resolver *)
(* ===================================================================== *)

Section Crawler.

Context (E : env).
Implicit Types (w : world) (body t : str) (m : outcome).

(** The external lookup catches whatever it raises. *)
Lemma fetch_never_raises version w :
  ∃ r w', _fetch_version_start_time E version w = (Ok r, w').
Proof.
  unfold _fetch_version_start_time, try_except, ret.
  destruct (http_get E _ _) as [|rc posts]; [eauto|].
  destruct (rc =? 0); [|eauto].
  destruct posts as [|post posts]; [eauto|].
  destruct (contains _ _); [|eauto].
  destruct (fromtimestamp E _); eauto.
Qed.

(** So does the resolver: its answer is a timestamp or [None]. *)
Lemma resolver_never_raises version w :
  ∃ r w', _get_version_start_time E version w = (Ok r, w').
Proof.
  unfold _get_version_start_time, try_except, bind, _load_version_data, ret, raise.
  destruct (default ∅ (version_file w) !! version) as [[s|]|]; [| eauto |].
  - destruct (fromisoformat E s); eauto.
  - destruct (fetch_never_raises version w) as (r & w' & ->).
    destruct r as [t|]; [|eauto].
    unfold _save_version_data. destruct (disk_write E _); eauto.
Qed.

Lemma extract_direct body w m :
  search TIME_PATTERN body = Some m →
  _extract_event_time E body w
  = (match _parse_direct_time m with Ok r => Ok (Some r) | Raise x => Raise x end, w).
Proof.
  intros Hm. unfold _extract_event_time, bind, lift, ret. rewrite Hm.
  by destruct (_parse_direct_time m).
Qed.

Lemma extract_version body w m :
  search TIME_PATTERN body = None → search VERSION_PATTERN body = Some m →
  _extract_event_time E body w = _parse_version_time E m w.
Proof. intros H1 H2. unfold _extract_event_time. by rewrite H1, H2. Qed.

Lemma parse_direct_ok m s e :
  strptime (group m 1) = Ok s → strptime (group m 2) = Ok e →
  _parse_direct_time m = Ok (s, e).
Proof. intros H1 H2. unfold _parse_direct_time. by rewrite H1, H2. Qed.

Lemma parse_direct_raises m :
  (∃ x, strptime (group m 1) = Raise x) ∨ (∃ x, strptime (group m 2) = Raise x) →
  ∃ x, _parse_direct_time m = Raise x.
Proof.
  unfold _parse_direct_time. intros [[x Hx]|[x Hx]].
  - rewrite Hx. eauto.
  - destruct (strptime (group m 1)); simpl; [rewrite Hx|]; eauto.
Qed.

Lemma parse_version_ok m w e r w' :
  strptime (group m 2) = Ok e →
  _get_version_start_time E (group m 1) w = (Ok r, w') →
  _parse_version_time E m w
  = (Ok (match r with Some t => Some (t, e) | None => None end), w').
Proof.
  intros He Hr.
  unfold _parse_version_time, try_except, bind, lift, ret. rewrite He, Hr.
  by destruct r.
Qed.

Lemma parse_version_raises m w x :
  strptime (group m 2) = Raise x → _parse_version_time E m w = (Raise x, w).
Proof. intros He. unfold _parse_version_time, bind, lift. by rewrite He. Qed.

(** What [parse_post_content] makes of the outcome of the time extraction,
    for a post that passes the gate. *)
Lemma parse_post_content_valid t body w :
  body ≠ [] → _is_valid_post_content t body = true →
  parse_post_content E (Page t body) w
  = match _extract_event_time E body w with
    | (Ok (Some (s, e)), w') =>
      (Some (Event (or_else (_extract_agents_title body) t) s e []), w')
    | (_, w') => (None, w')
    end.
Proof.
  intros Hne Hgate. unfold parse_post_content. destruct body as [|c body]; [done|].
  rewrite Hgate. simpl.
  destruct (_extract_event_time E (c :: body) w) as [[[[s e]|]|x] w']; done.
Qed.

Lemma parse_post_content_invalid t body w :
  _is_valid_post_content t body = false →
  parse_post_content E (Page t body) w = (None, w).
Proof.
  intros Hgate. unfold parse_post_content. destruct body; [done|]. by rewrite Hgate.
Qed.

End Crawler.

(** C4. The gate runs before any extraction: a post whose content holds the
    engine keyword 音擎 gives no event whatever else it holds, and so does a
    post whose content lacks the agent keyword 代理人; in both cases nothing
    of the world is touched (no pattern is tried, no version is resolved). *)
Theorem gate_short_circuits (E : env) (t body : str) (w : world) :
  (contains (py "音擎") body = true → parse_post_content E (Page t body) w = (None, w)) ∧
  (contains (py "代理人") body = false → parse_post_content E (Page t body) w = (None, w)).
Proof.
  split; intros H; apply parse_post_content_invalid; unfold _is_valid_post_content.
  - by rewrite H.
  - rewrite H. by destruct (contains (py "音擎") body).
Qed.

(** A post with both keywords and a well-formed window, and a post with a
    window but no agent keyword: neither gives an event. *)
Lemma gate_short_circuits_witness :
  (contains (py "音擎") (py "代理人 音擎 2024/3/1 10:00:00 ~ 2024/3/22 10:00:00") = true ∧
   parse_post_content Sample.E
     (Page (py "调频说明") (py "代理人 音擎 2024/3/1 10:00:00 ~ 2024/3/22 10:00:00")) Sample.w0
   = (None, Sample.w0)) ∧
  (contains (py "代理人") (py "2024/3/1 10:00:00 ~ 2024/3/22 10:00:00") = false ∧
   parse_post_content Sample.E
     (Page (py "调频说明") (py "2024/3/1 10:00:00 ~ 2024/3/22 10:00:00")) Sample.w0
   = (None, Sample.w0)).
Proof.
  split; split.
  - vm_compute. reflexivity.
  - apply (proj1 (gate_short_circuits Sample.E _ _ _)). vm_compute. reflexivity.
  - vm_compute. reflexivity.
  - apply (proj2 (gate_short_circuits Sample.E _ _ _)). vm_compute. reflexivity.
Defined.

(** C5. The time extraction tries the direct window first and the
    version-relative window second. When the direct pattern matches, its
    result is the result, whatever the version pattern would find, and the
    resolver is not consulted; when only the version pattern matches, its
    result is the result; when neither matches the result is [None]. *)
Theorem extract_event_time_order (E : env) (body : str) (w : world) :
  (∀ m, search TIME_PATTERN body = Some m →
     _extract_event_time E body w
     = (match _parse_direct_time m with Ok r => Ok (Some r) | Raise x => Raise x end, w)) ∧
  (∀ m, search TIME_PATTERN body = None → search VERSION_PATTERN body = Some m →
     _extract_event_time E body w = _parse_version_time E m w) ∧
  (search TIME_PATTERN body = None → search VERSION_PATTERN body = None →
     _extract_event_time E body w = (Ok None, w)).
Proof.
  split_and!.
  - intros m. apply extract_direct.
  - intros m. apply extract_version.
  - intros H1 H2. unfold _extract_event_time. by rewrite H1, H2.
Qed.

(** A post that holds both windows (direct window wins, the version file is
    not even read), one that holds only the version-relative window, and one
    that holds neither. *)
Lemma extract_event_time_order_witness :
  (search TIME_PATTERN (py "1.5版本更新后 ~ 2024/4/1 10:00:00 ~ 2024/5/1 10:00:00")
   = Some ([py "2024/4/1 10:00:00"; py "2024/5/1 10:00:00"], []) ∧
   search VERSION_PATTERN (py "1.5版本更新后 ~ 2024/4/1 10:00:00 ~ 2024/5/1 10:00:00")
   = Some ([py "1.5"; py "2024/4/1 10:00:00"], py " ~ 2024/5/1 10:00:00") ∧
   ∃ s e, make 2024 4 1 10 0 0 = Ok s ∧ make 2024 5 1 10 0 0 = Ok e ∧
     _extract_event_time Sample.E
       (py "1.5版本更新后 ~ 2024/4/1 10:00:00 ~ 2024/5/1 10:00:00") Sample.w_cached
     = (Ok (Some (s, e)), Sample.w_cached)) ∧
  (search TIME_PATTERN (py "1.5版本更新后 ~ 2024/4/1 10:00:00") = None ∧
   search VERSION_PATTERN (py "1.5版本更新后 ~ 2024/4/1 10:00:00")
   = Some ([py "1.5"; py "2024/4/1 10:00:00"], []) ∧
   _extract_event_time Sample.E (py "1.5版本更新后 ~ 2024/4/1 10:00:00") Sample.w_cached
   = _parse_version_time Sample.E ([py "1.5"; py "2024/4/1 10:00:00"], []) Sample.w_cached) ∧
  (search TIME_PATTERN (py "限时调频即将开启") = None ∧
   search VERSION_PATTERN (py "限时调频即将开启") = None ∧
   _extract_event_time Sample.E (py "限时调频即将开启") Sample.w0 = (Ok None, Sample.w0)).
Proof.
  split_and!.
  - vm_compute. reflexivity.
  - vm_compute. reflexivity.
  - eexists _, _. split_and!; [vm_compute; reflexivity ..|].
    etrans; [apply (proj1 (extract_event_time_order Sample.E _ Sample.w_cached))|].
    + vm_compute. reflexivity.
    + vm_compute. reflexivity.
  - vm_compute. reflexivity.
  - vm_compute. reflexivity.
  - apply (proj1 (proj2 (extract_event_time_order Sample.E _ Sample.w_cached)));
      vm_compute; reflexivity.
  - vm_compute. reflexivity.
  - vm_compute. reflexivity.
  - apply (proj2 (proj2 (extract_event_time_order Sample.E _ Sample.w0)));
      vm_compute; reflexivity.
Defined.

(** C2, amended. When the direct pattern matches and [strptime] accepts the
    two captured sides, they are the start and the end that are returned, as
    parsed (naive, the calendar fields as written), and nothing of the world is
    touched; when [strptime] rejects a side (the pattern admits month 13, day
    30 of February, hour 24, ...) it raises, and the post gives no event. The
    window of the specification, ["2024/3/1 10:00:00 ~ 2024/3/22 10:00:00"],
    extracts to 2024-03-01T10:00:00 and 2024-03-22T10:00:00. *)
Theorem direct_window_round_trip (E : env) (w : world) :
  (∀ body m s e,
     search TIME_PATTERN body = Some m →
     strptime (group m 1) = Ok s → strptime (group m 2) = Ok e →
     _extract_event_time E body w = (Ok (Some (s, e)), w)) ∧
  (∀ t body m,
     search TIME_PATTERN body = Some m →
     (∃ x, strptime (group m 1) = Raise x) ∨ (∃ x, strptime (group m 2) = Raise x) →
     (∃ x, _extract_event_time E body w = (Raise x, w)) ∧
     parse_post_content E (Page t body) w = (None, w)) ∧
  (∃ s e,
     make 2024 3 1 10 0 0 = Ok s ∧ make 2024 3 22 10 0 0 = Ok e ∧
     isoformat s = py "2024-03-01T10:00:00" ∧ isoformat e = py "2024-03-22T10:00:00" ∧
     _extract_event_time E (py "2024/3/1 10:00:00 ~ 2024/3/22 10:00:00") w
     = (Ok (Some (s, e)), w)).
Proof.
  assert (∀ body m s e,
     search TIME_PATTERN body = Some m →
     strptime (group m 1) = Ok s → strptime (group m 2) = Ok e →
     _extract_event_time E body w = (Ok (Some (s, e)), w)) as Hok.
  { intros body m s e Hm Hs He.
    rewrite (extract_direct E body w m Hm). by rewrite (parse_direct_ok m s e Hs He). }
  split_and!; [exact Hok | |].
  - intros t body m Hm Hbad.
    destruct (parse_direct_raises m Hbad) as [x Hx].
    pose proof (extract_direct E body w m Hm) as Hex. rewrite Hx in Hex.
    split; [by exists x|].
    destruct (_is_valid_post_content t body) eqn:Hgate.
    + destruct body as [|c body]; [done|].
      rewrite parse_post_content_valid by done. by rewrite Hex.
    + by apply parse_post_content_invalid.
  - eexists _, _. split_and!; [vm_compute; reflexivity ..|].
    apply (Hok _ ([py "2024/3/1 10:00:00"; py "2024/3/22 10:00:00"], []));
      vm_compute; reflexivity.
Qed.

(** The window of the specification inside a post, and a window whose start
    names month 13. *)
Lemma direct_window_round_trip_witness :
  (search TIME_PATTERN (py "代理人调频 2024/3/1 10:00:00 ~ 2024/3/22 10:00:00 结束")
   = Some ([py "2024/3/1 10:00:00"; py "2024/3/22 10:00:00"], py " 结束") ∧
   ∃ s e, strptime (py "2024/3/1 10:00:00") = Ok s ∧ strptime (py "2024/3/22 10:00:00") = Ok e ∧
     _extract_event_time Sample.E
       (py "代理人调频 2024/3/1 10:00:00 ~ 2024/3/22 10:00:00 结束") Sample.w0
     = (Ok (Some (s, e)), Sample.w0)) ∧
  (search TIME_PATTERN (py "代理人 2024/13/1 10:00:00 ~ 2024/3/22 10:00:00")
   = Some ([py "2024/13/1 10:00:00"; py "2024/3/22 10:00:00"], []) ∧
   strptime (py "2024/13/1 10:00:00") = Raise ValueError ∧
   parse_post_content Sample.E
     (Page (py "调频说明") (py "代理人 2024/13/1 10:00:00 ~ 2024/3/22 10:00:00")) Sample.w0
   = (None, Sample.w0)).
Proof.
  split_and!.
  - vm_compute. reflexivity.
  - eexists _, _. split_and!; [vm_compute; reflexivity ..|].
    apply (proj1 (direct_window_round_trip Sample.E Sample.w0) _
             ([py "2024/3/1 10:00:00"; py "2024/3/22 10:00:00"], py " 结束"));
      vm_compute; reflexivity.
  - vm_compute. reflexivity.
  - vm_compute. reflexivity.
  - apply (proj1 (proj2 (direct_window_round_trip Sample.E Sample.w0)) _ _
             ([py "2024/13/1 10:00:00"; py "2024/3/22 10:00:00"], [])).
    + vm_compute. reflexivity.
    + left. exists ValueError. vm_compute. reflexivity.
Defined.

(** The post [代理人 2024/13/1 10:00:00 ~ 2024/3/22 10:00:00] matches the
    direct pattern, and its two sides are not returned: [strptime] raises on
    the first and the post gives no event. *)
Lemma direct_window_counterexample :
  let body := py "代理人 2024/13/1 10:00:00 ~ 2024/3/22 10:00:00" in
  search TIME_PATTERN body
  = Some ([py "2024/13/1 10:00:00"; py "2024/3/22 10:00:00"], []) ∧
  _extract_event_time Sample.E body Sample.w0 = (Raise ValueError, Sample.w0) ∧
  parse_post_content Sample.E (Page (py "调频说明") body) Sample.w0 = (None, Sample.w0).
Proof. vm_compute. done. Qed.

(** C3, amended. For a post the direct pattern does not match and the
    version pattern matches, with an end that [strptime] accepts: when the
    resolver gives a timestamp for the version, the result is that timestamp
    and the parsed end; when it gives [None] the result is [None], and the post
    gives no event. The resolver never raises. When [strptime] rejects the end
    it raises before the resolver is asked, and the post gives no event. *)
Theorem version_window (E : env) (w : world) :
  (∀ body m e t w',
     search TIME_PATTERN body = None → search VERSION_PATTERN body = Some m →
     strptime (group m 2) = Ok e →
     _get_version_start_time E (group m 1) w = (Ok (Some t), w') →
     _extract_event_time E body w = (Ok (Some (t, e)), w')) ∧
  (∀ title body m e w',
     search TIME_PATTERN body = None → search VERSION_PATTERN body = Some m →
     strptime (group m 2) = Ok e →
     _get_version_start_time E (group m 1) w = (Ok None, w') →
     _extract_event_time E body w = (Ok None, w') ∧
     fst (parse_post_content E (Page title body) w) = None) ∧
  (∀ version, ∃ r w', _get_version_start_time E version w = (Ok r, w')) ∧
  (∀ title body m x,
     search TIME_PATTERN body = None → search VERSION_PATTERN body = Some m →
     strptime (group m 2) = Raise x →
     _extract_event_time E body w = (Raise x, w) ∧
     parse_post_content E (Page title body) w = (None, w)).
Proof.
  split_and!.
  - intros body m e t w' H1 H2 He Hr.
    rewrite (extract_version E body w m H1 H2).
    by rewrite (parse_version_ok E m w e (Some t) w' He Hr).
  - intros title body m e w' H1 H2 He Hr.
    assert (_extract_event_time E body w = (Ok None, w')) as Hex.
    { rewrite (extract_version E body w m H1 H2).
      by rewrite (parse_version_ok E m w e None w' He Hr). }
    split; [done|].
    destruct (_is_valid_post_content title body) eqn:Hgate.
    + destruct body as [|c body]; [done|].
      rewrite parse_post_content_valid by done. by rewrite Hex.
    + by rewrite parse_post_content_invalid.
  - intros version. apply resolver_never_raises.
  - intros title body m x H1 H2 He.
    assert (_extract_event_time E body w = (Raise x, w)) as Hex.
    { rewrite (extract_version E body w m H1 H2). by apply parse_version_raises. }
    split; [done|].
    destruct (_is_valid_post_content title body) eqn:Hgate.
    + destruct body as [|c body]; [done|].
      rewrite parse_post_content_valid by done. by rewrite Hex.
    + by apply parse_post_content_invalid.
Qed.

(** The window of the specification, ["1.5版本更新后 ~ 2024/4/1 10:00:00"]:
    with a version file that gives 2024-03-15T12:00:00 for 1.5 it extracts to
    that start and to the end 2024-04-01T10:00:00; with no version file and a
    search API that fails, to [None]; and with month 13 in the end, to an
    exception and no event. *)
Lemma version_window_witness :
  let body := py "1.5版本更新后 ~ 2024/4/1 10:00:00" in
  let m := ([py "1.5"; py "2024/4/1 10:00:00"], []) in
  let t := Sample.at_ 2024 3 15 12 0 0 in
  let e := Sample.at_ 2024 4 1 10 0 0 in
  let offline :=
    {| fromisoformat := Sample.fromisoformat; fromtimestamp := Sample.fromtimestamp;
       http_get := fun _ _ => ApiFailure; disk_write := fun _ => Written |} in
  let w_asked :=
    {| version_file := None;
       requests := [API_BASE_URL ++ py "?keyword=【绝区零绳网情报站】1.5版本&size=1"];
       write_attempts := 0; writes := 0 |} in
  (search TIME_PATTERN body = None ∧ search VERSION_PATTERN body = Some m ∧
   isoformat t = py "2024-03-15T12:00:00" ∧ isoformat e = py "2024-04-01T10:00:00" ∧
   strptime (group m 2) = Ok e ∧
   _get_version_start_time Sample.E (group m 1) Sample.w_cached
   = (Ok (Some t), Sample.w_cached) ∧
   _extract_event_time Sample.E body Sample.w_cached = (Ok (Some (t, e)), Sample.w_cached)) ∧
  (_get_version_start_time offline (group m 1) Sample.w0 = (Ok None, w_asked) ∧
   _extract_event_time offline body Sample.w0 = (Ok None, w_asked) ∧
   fst (parse_post_content offline (Page (py "调频说明") body) Sample.w0) = None) ∧
  (∃ r w', _get_version_start_time Sample.E (py "1.5") Sample.w0 = (Ok r, w')) ∧
  (search TIME_PATTERN (py "代理人 1.5版本更新后 ~ 2024/13/1 10:00:00") = None ∧
   search VERSION_PATTERN (py "代理人 1.5版本更新后 ~ 2024/13/1 10:00:00")
   = Some ([py "1.5"; py "2024/13/1 10:00:00"], []) ∧
   strptime (py "2024/13/1 10:00:00") = Raise ValueError ∧
   parse_post_content Sample.E
     (Page (py "调频说明") (py "代理人 1.5版本更新后 ~ 2024/13/1 10:00:00")) Sample.w_cached
   = (None, Sample.w_cached)).
Proof.
  intros body m t e offline w_asked.
  assert (search TIME_PATTERN body = None) as H1 by (vm_compute; reflexivity).
  assert (search VERSION_PATTERN body = Some m) as H2 by (vm_compute; reflexivity).
  assert (strptime (group m 2) = Ok e) as H3 by (vm_compute; reflexivity).
  assert (_get_version_start_time Sample.E (group m 1) Sample.w_cached
          = (Ok (Some t), Sample.w_cached)) as H4 by (vm_compute; reflexivity).
  assert (_get_version_start_time offline (group m 1) Sample.w0 = (Ok None, w_asked)) as H5
    by (vm_compute; reflexivity).
  split_and!.
  - exact H1.
  - exact H2.
  - vm_compute. reflexivity.
  - vm_compute. reflexivity.
  - exact H3.
  - exact H4.
  - exact (proj1 (version_window Sample.E Sample.w_cached) body m e t _ H1 H2 H3 H4).
  - exact H5.
  - exact (proj1 (proj1 (proj2 (version_window offline Sample.w0)) [] body m e _ H1 H2 H3 H5)).
  - exact (proj2 (proj1 (proj2 (version_window offline Sample.w0))
                    (py "调频说明") body m e _ H1 H2 H3 H5)).
  - exact (proj1 (proj2 (proj2 (version_window Sample.E Sample.w0))) (py "1.5")).
  - vm_compute. reflexivity.
  - vm_compute. reflexivity.
  - vm_compute. reflexivity.
  - apply (proj2 (proj2 (proj2 (version_window Sample.E Sample.w_cached))) _ _
             ([py "1.5"; py "2024/13/1 10:00:00"], []) ValueError);
      vm_compute; reflexivity.
Defined.

(** Two posts that match the version pattern with the version file
    answering 2024-03-15T12:00:00 for version 1.5. The first also holds a
    direct window, which is tried first: the result is the direct window, not
    the version start with the end the version pattern captured. The second
    names month 13 in its end: [strptime] raises and the post gives no
    event. *)
Lemma version_window_counterexample :
  let t := Sample.at_ 2024 3 15 12 0 0 in
  let both := py "代理人 1.5版本更新后 ~ 2024/4/1 10:00:00 ~ 2024/5/1 10:00:00" in
  let bad_end := py "代理人 1.5版本更新后 ~ 2024/13/1 10:00:00" in
  _get_version_start_time Sample.E (py "1.5") Sample.w_cached = (Ok (Some t), Sample.w_cached) ∧
  (search VERSION_PATTERN both
   = Some ([py "1.5"; py "2024/4/1 10:00:00"], py " ~ 2024/5/1 10:00:00") ∧
   strptime (py "2024/4/1 10:00:00") = Ok (Sample.at_ 2024 4 1 10 0 0) ∧
   _extract_event_time Sample.E both Sample.w_cached
   = (Ok (Some (Sample.at_ 2024 4 1 10 0 0, Sample.at_ 2024 5 1 10 0 0)), Sample.w_cached) ∧
   _extract_event_time Sample.E both Sample.w_cached
   ≠ (Ok (Some (t, Sample.at_ 2024 4 1 10 0 0)), Sample.w_cached)) ∧
  (search VERSION_PATTERN bad_end = Some ([py "1.5"; py "2024/13/1 10:00:00"], []) ∧
   _extract_event_time Sample.E bad_end Sample.w_cached = (Raise ValueError, Sample.w_cached) ∧
   parse_post_content Sample.E (Page (py "调频说明") bad_end) Sample.w_cached
   = (None, Sample.w_cached)).
Proof.
  intros t both bad_end.
  assert (_extract_event_time Sample.E both Sample.w_cached
          = (Ok (Some (Sample.at_ 2024 4 1 10 0 0, Sample.at_ 2024 5 1 10 0 0)),
             Sample.w_cached)) as Hboth by (vm_compute; reflexivity).
  split_and!.
  - vm_compute. reflexivity.
  - vm_compute. reflexivity.
  - vm_compute. reflexivity.
  - exact Hboth.
  - rewrite Hboth. vm_compute. intros H. discriminate H.
  - vm_compute. reflexivity.
  - vm_compute. reflexivity.
  - vm_compute. reflexivity.
Qed.

(** C1, amended. An event that [parse_post_content] produces carries the
    start and the end that the time extraction returned, and a post for which
    the extraction returns [None] or raises gives no event. The order of
    start and end is never looked at: whenever the direct pattern matches and
    both sides parse, the post that passes the gate gives the event with
    these two timestamps, whichever is the earlier. *)
Theorem extraction_start_end (E : env) (t body : str) (w : world) :
  (∀ ev w', parse_post_content E (Page t body) w = (Some ev, w') →
     _extract_event_time E body w = (Ok (Some (start_time ev, end_time ev)), w')) ∧
  (∀ r w', _extract_event_time E body w = (r, w') →
     r = Ok None ∨ (∃ x, r = Raise x) →
     fst (parse_post_content E (Page t body) w) = None) ∧
  (∀ m s e, body ≠ [] → _is_valid_post_content t body = true →
     search TIME_PATTERN body = Some m →
     strptime (group m 1) = Ok s → strptime (group m 2) = Ok e →
     parse_post_content E (Page t body) w
     = (Some (Event (or_else (_extract_agents_title body) t) s e []), w)).
Proof.
  split_and!.
  - intros ev w' Hp.
    destruct (_is_valid_post_content t body) eqn:Hgate.
    + destruct body as [|c body]; [done|].
      rewrite parse_post_content_valid in Hp by done.
      destruct (_extract_event_time E (c :: body) w) as [[[[s e]|]|x] w'']; [|done..].
      by inversion Hp.
    + by rewrite parse_post_content_invalid in Hp.
  - intros r w' Hex Hr.
    destruct (_is_valid_post_content t body) eqn:Hgate.
    + destruct body as [|c body]; [done|].
      rewrite parse_post_content_valid by done. rewrite Hex.
      by destruct Hr as [->|[x ->]].
    + by rewrite parse_post_content_invalid.
  - intros m s e Hne Hgate Hm Hs He.
    rewrite parse_post_content_valid by done.
    rewrite (extract_direct E body w m Hm). by rewrite (parse_direct_ok m s e Hs He).
Qed.

(** A post whose window runs backwards, from 22 March to 1 March: it is
    extracted and stored as it stands. *)
Lemma extraction_start_end_witness :
  let body := py "代理人 2024/3/22 10:00:00 ~ 2024/3/1 10:00:00" in
  let m := ([py "2024/3/22 10:00:00"; py "2024/3/1 10:00:00"], []) in
  let s := Sample.at_ 2024 3 22 10 0 0 in
  let e := Sample.at_ 2024 3 1 10 0 0 in
  let ev := Event (py "调频说明") s e [] in
  (parse_post_content Sample.E (Page (py "调频说明") body) Sample.w0 = (Some ev, Sample.w0) ∧
   _extract_event_time Sample.E body Sample.w0
   = (Ok (Some (start_time ev, end_time ev)), Sample.w0)) ∧
  (_extract_event_time Sample.E (py "代理人 限时调频") Sample.w0 = (Ok None, Sample.w0) ∧
   fst (parse_post_content Sample.E (Page (py "调频说明") (py "代理人 限时调频")) Sample.w0)
   = None) ∧
  (body ≠ [] ∧ _is_valid_post_content (py "调频说明") body = true ∧
   search TIME_PATTERN body = Some m ∧
   strptime (group m 1) = Ok s ∧ strptime (group m 2) = Ok e ∧
   or_else (_extract_agents_title body) (py "调频说明") = py "调频说明" ∧
   parse_post_content Sample.E (Page (py "调频说明") body) Sample.w0
   = (Some (Event (or_else (_extract_agents_title body) (py "调频说明")) s e []), Sample.w0)).
Proof.
  intros body m s e ev.
  assert (parse_post_content Sample.E (Page (py "调频说明") body) Sample.w0
          = (Some ev, Sample.w0)) as Hp by (vm_compute; reflexivity).
  assert (_extract_event_time Sample.E (py "代理人 限时调频") Sample.w0 = (Ok None, Sample.w0))
    as Hnone by (vm_compute; reflexivity).
  assert (body ≠ []) as Hne by (vm_compute; intros H; discriminate H).
  assert (_is_valid_post_content (py "调频说明") body = true) as Hgate
    by (vm_compute; reflexivity).
  assert (search TIME_PATTERN body = Some m) as Hm by (vm_compute; reflexivity).
  assert (strptime (group m 1) = Ok s) as Hs by (vm_compute; reflexivity).
  assert (strptime (group m 2) = Ok e) as He by (vm_compute; reflexivity).
  split_and!.
  - exact Hp.
  - exact (proj1 (extraction_start_end Sample.E (py "调频说明") body Sample.w0) ev _ Hp).
  - exact Hnone.
  - exact (proj1 (proj2 (extraction_start_end Sample.E (py "调频说明") (py "代理人 限时调频")
                           Sample.w0)) _ _ Hnone (or_introl eq_refl)).
  - exact Hne.
  - exact Hgate.
  - exact Hm.
  - exact Hs.
  - exact He.
  - vm_compute. reflexivity.
  - exact (proj2 (proj2 (extraction_start_end Sample.E (py "调频说明") body Sample.w0))
             m s e Hne Hgate Hm Hs He).
Defined.

(** The post [代理人 2024/3/22 10:00:00 ~ 2024/3/1 10:00:00] gives an event
    whose start is not before its end. *)
Lemma extraction_start_end_counterexample :
  ∃ ev, parse_post_content Sample.E
          (Page (py "调频说明") (py "代理人 2024/3/22 10:00:00 ~ 2024/3/1 10:00:00")) Sample.w0
        = (Some ev, Sample.w0) ∧
        isoformat (start_time ev) = py "2024-03-22T10:00:00" ∧
        isoformat (end_time ev) = py "2024-03-01T10:00:00" ∧
        ¬ lt (start_time ev) (end_time ev).
Proof.
  exists (Event (py "调频说明") (Sample.at_ 2024 3 22 10 0 0) (Sample.at_ 2024 3 1 10 0 0) []).
  split_and!.
  - vm_compute. reflexivity.
  - vm_compute. reflexivity.
  - vm_compute. reflexivity.
  - unfold lt. vm_compute. intros H. discriminate H.
Qed.

(* ===================================================================== *)
(** ** merge_events *)
(* ===================================================================== *)

Section ODictLemmas.

Context {K V : Type} `{EqDecision K}.
Implicit Types (k : K) (v : V) (d : list (K * V)).

Lemma get_set_eq k v d : ODict.get k (ODict.set k v d) = Some v.
Proof.
  induction d as [|[k' v'] d IH]; simpl.
  - by rewrite decide_True.
  - destruct (decide (k = k')) as [->|Hne]; simpl.
    + by rewrite decide_True.
    + by rewrite decide_False.
Qed.

Lemma get_set_ne k k' v d : k ≠ k' → ODict.get k' (ODict.set k v d) = ODict.get k' d.
Proof.
  intros Hne. induction d as [|[k0 v0] d IH]; simpl.
  - by rewrite decide_False.
  - destruct (decide (k = k0)) as [->|Hne0]; simpl.
    + by rewrite !decide_False.
    + destruct (decide (k' = k0)); [done | apply IH].
Qed.

Lemma get_Some_keys k d : is_Some (ODict.get k d) ↔ k ∈ ODict.keys d.
Proof.
  unfold ODict.keys. induction d as [|[k' v'] d IH]; simpl.
  - split; [intros [? ?]; done | intros H; by apply not_elem_of_nil in H].
  - rewrite elem_of_cons. destruct (decide (k = k')) as [->|Hne].
    + split; [by left | by eexists].
    + rewrite IH. split; [by right | intros [?|?]; done].
Qed.

Lemma keys_set k v d :
  ODict.keys (ODict.set k v d)
  = if decide (k ∈ ODict.keys d) then ODict.keys d else ODict.keys d ++ [k].
Proof.
  unfold ODict.keys. induction d as [|[k' v'] d IH].
  - destruct (decide (k ∈ map fst [])) as [Hin|_]; [|done].
    by apply not_elem_of_nil in Hin.
  - cbn [ODict.set map fst].
    destruct (decide (k = k')) as [->|Hne]; cbn [map fst].
    + destruct (decide (k' ∈ k' :: map fst d)) as [_|Hnin]; [done|].
      exfalso. apply Hnin, elem_of_cons. by left.
    + rewrite IH. destruct (decide (k ∈ map fst d)) as [Hin|Hnin].
      * destruct (decide (k ∈ k' :: map fst d)) as [_|Hnin]; [done|].
        exfalso. apply Hnin, elem_of_cons. by right.
      * destruct (decide (k ∈ k' :: map fst d)) as [Hin|_]; [|done].
        by apply elem_of_cons in Hin as [?|?].
Qed.

Lemma keys_set_NoDup k v d : NoDup (ODict.keys d) → NoDup (ODict.keys (ODict.set k v d)).
Proof.
  intros Hnd. rewrite keys_set. destruct (decide (k ∈ ODict.keys d)); [done|].
  apply NoDup_app. split_and!; [done | | apply NoDup_singleton].
  intros x Hx ->%list_elem_of_singleton. done.
Qed.

End ODictLemmas.

Section Merge.

Implicit Types (e : event) (events g : list event) (k : str * str).

Lemma set_title_title e : set_title (title e) e = e.
Proof. by destruct e. Qed.

Lemma set_title_set_title t t' e : set_title t (set_title t' e) = set_title t e.
Proof. done. Qed.

Lemma merge_events_snoc events e :
  merge_events (events ++ [e]) = merge_step (merge_events events) e.
Proof. unfold merge_events. by rewrite foldl_app. Qed.

Lemma merge_group_snoc g e :
  merge_group (g ++ [e])
  = match merge_group g with
    | None => Some e
    | Some existing => Some (set_title (merge_titles (title existing) e) existing)
    end.
Proof.
  destruct g as [|e0 es]; simpl.
  - by rewrite set_title_title.
  - by rewrite foldl_app.
Qed.

(** Each window is merged on its own: the entry under a key is the merge of
    the events with that key, in input order. *)
Lemma get_merge_events events k :
  ODict.get k (merge_events events) = merge_group (window k events).
Proof.
  induction events as [|e events IH] using rev_ind; [done|].
  rewrite merge_events_snoc. unfold window in *. rewrite filter_app.
  unfold merge_step. destruct (decide (time_key e = k)) as [Hk|Hk].
  - rewrite filter_cons_True, filter_nil by done.
    rewrite merge_group_snoc, <- IH, Hk.
    destruct (ODict.get k (merge_events events)) as [existing|]; by rewrite get_set_eq.
  - rewrite filter_cons_False, filter_nil, app_nil_r by done.
    destruct (ODict.get (time_key e) (merge_events events)); by rewrite get_set_ne.
Qed.

Lemma merge_events_keys_NoDup events : NoDup (ODict.keys (merge_events events)).
Proof.
  induction events as [|e events IH] using rev_ind; [apply NoDup_nil_2|].
  rewrite merge_events_snoc. unfold merge_step.
  destruct (ODict.get (time_key e) (merge_events events)); by apply keys_set_NoDup.
Qed.

Lemma merge_events_keys events k :
  k ∈ ODict.keys (merge_events events) ↔ ∃ e, e ∈ events ∧ time_key e = k.
Proof.
  rewrite <- get_Some_keys, get_merge_events. unfold window.
  destruct (filter (λ e, time_key e = k) events) as [|e0 es] eqn:Hf; simpl.
  - split; [intros [? ?]; done|]. intros (e & Hin & Hk).
    assert (e ∈ filter (λ e, time_key e = k) events) as H by by apply list_elem_of_filter.
    rewrite Hf in H. by apply not_elem_of_nil in H.
  - split; [|by eexists]. intros _.
    assert (e0 ∈ filter (λ e, time_key e = k) events) as H
      by (rewrite Hf; apply elem_of_cons; by left).
    apply list_elem_of_filter in H as [? ?]. eauto.
Qed.

(** The segments of a title after a merge: the segments of the two titles,
    each at its first occurrence. *)
Lemma segments_merge_titles t e :
  split DELIM (merge_titles t e) = dict_fromkeys (split DELIM t ++ split DELIM (title e)).
Proof.
  unfold merge_titles. apply split_join.
  - apply dict_fromkeys_nonempty. pose proof (split_nonempty DELIM t).
    by destruct (split DELIM t).
  - intros seg [Hin|Hin]%dict_fromkeys_elem%elem_of_app; by eapply split_no_sep.
Qed.

Lemma segments_fold_titles t es :
  es ≠ [] →
  NoDup (split DELIM (foldl merge_titles t es)) ∧
  ∀ x, x ∈ split DELIM (foldl merge_titles t es)
       ↔ x ∈ split DELIM t ∨ ∃ e, e ∈ es ∧ x ∈ segments e.
Proof.
  revert t. induction es as [|e es IH]; [done|]. intros t _. simpl.
  assert (∀ x, x ∈ split DELIM (merge_titles t e) ↔ x ∈ split DELIM t ∨ x ∈ segments e) as Hone.
  { intros x. by rewrite segments_merge_titles, dict_fromkeys_elem, elem_of_app. }
  destruct es as [|e' es].
  - simpl. split.
    + rewrite segments_merge_titles. apply dict_fromkeys_NoDup.
    + intros x. rewrite Hone. split; intros [H|H]; auto.
      * right. exists e. split; [apply elem_of_cons; by left | done].
      * destruct H as (e1 & ->%list_elem_of_singleton & H). by right.
  - destruct (IH (merge_titles t e)) as [Hnd Hel]; [done|]. split; [done|].
    intros x. rewrite Hel, Hone. split.
    + intros [[H|H]|(e1 & Hin & H)]; auto.
      * right. exists e. split; [apply elem_of_cons; by left | done].
      * right. exists e1. split; [apply elem_of_cons; by right | done].
    + intros [H|(e1 & [->|Hin]%elem_of_cons & H)]; auto.
      right. by exists e1.
Qed.

(** The fields of the first event of the window that the entry keeps. *)
Lemma merge_group_first g m :
  merge_group g = Some m →
  ∃ e0 es, g = e0 :: es ∧ start_time m = start_time e0 ∧ end_time m = end_time e0 ∧
           description m = description e0.
Proof. destruct g as [|e0 es]; [done|]. intros [= <-]. by exists e0, es. Qed.

End Merge.

Lemma window_first (k : str * str) (events : list event) e0 es :
  window k events = e0 :: es →
  ∃ pre post, events = pre ++ e0 :: post ∧ time_key e0 = k ∧ ∀ e, e ∈ pre → time_key e ≠ k.
Proof.
  unfold window. induction events as [|e events IH]; [done|].
  destruct (decide (time_key e = k)) as [Hk|Hk].
  - rewrite filter_cons_True by done. intros [= -> _].
    exists [], events. split_and!; [done..|]. intros e' H. by apply not_elem_of_nil in H.
  - rewrite filter_cons_False by done. intros Hf.
    destruct (IH Hf) as (pre & post & -> & Hk0 & Hpre).
    exists (e :: pre), post. split_and!; [done..|].
    intros e' [->|Hin]%elem_of_cons; auto.
Qed.

Lemma merge_two_same (e1 e2 : event) :
  time_key e1 = time_key e2 →
  merge_events [e1; e2]
  = [(time_key e1,
      set_title (join [DELIM] (dict_fromkeys (segments e1 ++ segments e2))) e1)].
Proof.
  intros Hk. unfold merge_events, merge_step. simpl.
  rewrite <- Hk. rewrite decide_True by done. simpl. by rewrite decide_True.
Qed.

(** C7. [merge_events] files each event under the pair of the ISO forms of
    its start and its end, each pair once. Two events with the same pair
    become one entry: its title is the segments of the two titles, each kept
    once at its first occurrence, joined by 、, so that titles "A" and "A"
    give "A" and titles "A" and "B" give "A、B"; two events with different
    pairs stay two entries. Whatever the input, the entry of a pair keeps the
    start, the end and the description of the first event with that pair. *)
Theorem merge_events_same_window :
  (∀ events k, k ∈ ODict.keys (merge_events events) ↔
     ∃ e, e ∈ events ∧ k = (isoformat (start_time e), isoformat (end_time e))) ∧
  (∀ events, NoDup (ODict.keys (merge_events events))) ∧
  (∀ e1 e2, time_key e1 = time_key e2 →
     merge_events [e1; e2]
     = [(time_key e1,
         set_title (join [DELIM] (dict_fromkeys (segments e1 ++ segments e2))) e1)]) ∧
  (∀ e1 e2, time_key e1 ≠ time_key e2 →
     merge_events [e1; e2] = [(time_key e1, e1); (time_key e2, e2)]) ∧
  (∀ e1 e2, time_key e1 = time_key e2 → title e1 = title e2 → NoDup (segments e1) →
     merge_events [e1; e2] = [(time_key e1, e1)]) ∧
  (∀ s e d1 d2,
     merge_events [Event (py "A") s e d1; Event (py "A") s e d2]
     = [((isoformat s, isoformat e), Event (py "A") s e d1)] ∧
     merge_events [Event (py "A") s e d1; Event (py "B") s e d2]
     = [((isoformat s, isoformat e), Event (py "A、B") s e d1)]) ∧
  (∀ events k m, ODict.get k (merge_events events) = Some m →
     ∃ pre e0 post, events = pre ++ e0 :: post ∧ time_key e0 = k ∧
       (∀ e, e ∈ pre → time_key e ≠ k) ∧
       start_time m = start_time e0 ∧ end_time m = end_time e0 ∧
       description m = description e0).
Proof.
  split_and!.
  - intros events k. rewrite merge_events_keys. unfold time_key.
    split; intros (e & Hin & Hk); exists e; by split.
  - apply merge_events_keys_NoDup.
  - apply merge_two_same.
  - intros e1 e2 Hk. unfold merge_events, merge_step. simpl.
    rewrite decide_False by done. simpl. by rewrite decide_False.
  - intros e1 e2 Hk Ht Hnd. rewrite merge_two_same by done. do 2 f_equal.
    unfold segments in *. rewrite <- Ht.
    unfold dict_fromkeys. rewrite fromkeys_from_app.
    rewrite (fromkeys_from_fresh [] _ Hnd). simpl.
    rewrite fromkeys_from_seen by done. rewrite join_split. apply set_title_title.
  - intros s e d1 d2. split; by rewrite merge_two_same.
  - intros events k m Hm. rewrite get_merge_events in Hm.
    destruct (merge_group_first _ _ Hm) as (e0 & es & Hw & Hs & He & Hd).
    destruct (window_first _ _ _ _ Hw) as (pre & post & -> & Hk & Hpre).
    by exists pre, e0, post.
Qed.

(** Three banners: two on the window 1 March to 22 March with titles "A" and
    "B", one on a window that starts at the same instant and ends a day
    later. *)
Lemma merge_events_same_window_witness :
  let s := Sample.at_ 2024 3 1 10 0 0 in
  let e := Sample.at_ 2024 3 22 10 0 0 in
  let e' := Sample.at_ 2024 3 23 10 0 0 in
  let k := (py "2024-03-01T10:00:00", py "2024-03-22T10:00:00") in
  let a := Event (py "A") s e (py "first") in
  let b := Event (py "B") s e (py "second") in
  let c := Event (py "A") s e' [] in
  (time_key a = time_key b ∧
   merge_events [a; b] = [(k, Event (py "A、B") s e (py "first"))]) ∧
  (time_key a ≠ time_key c ∧
   merge_events [a; c] = [(time_key a, a); (time_key c, c)]) ∧
  (time_key a = time_key a ∧ NoDup (segments a) ∧ merge_events [a; a] = [(k, a)]) ∧
  (ODict.get k (merge_events [c; a; b]) = Some (Event (py "A、B") s e (py "first")) ∧
   ∃ pre e0 post, [c; a; b] = pre ++ e0 :: post ∧ time_key e0 = k ∧
     (∀ x, x ∈ pre → time_key x ≠ k) ∧
     s = start_time e0 ∧ e = end_time e0 ∧ py "first" = description e0).
Proof.
  intros s e e' k a b c.
  assert (time_key a = k) as Hka by (vm_compute; reflexivity).
  assert (time_key a = time_key b) as Hab by reflexivity.
  assert (time_key a ≠ time_key c) as Hac by (vm_compute; intros H; discriminate H).
  assert (NoDup (segments a)) as Hnd.
  { vm_compute. apply NoDup_singleton. }
  assert (ODict.get k (merge_events [c; a; b]) = Some (Event (py "A、B") s e (py "first")))
    as Hget by (vm_compute; reflexivity).
  split_and!.
  - exact Hab.
  - rewrite (proj1 (proj2 (proj2 merge_events_same_window)) a b Hab).
    vm_compute. reflexivity.
  - exact Hac.
  - exact (proj1 (proj2 (proj2 (proj2 merge_events_same_window))) a c Hac).
  - reflexivity.
  - exact Hnd.
  - rewrite <- Hka.
    exact (proj1 (proj2 (proj2 (proj2 (proj2 merge_events_same_window)))) a a
             eq_refl eq_refl Hnd).
  - exact Hget.
  - exact (proj2 (proj2 (proj2 (proj2 (proj2 (proj2 merge_events_same_window)))))
             [c; a; b] k _ Hget).
Defined.

(** C8. The merge is stable under reordering of its input: the set of keys
    is the same, and under each key the merged title has the same segments,
    up to their order. *)
Theorem merge_events_order_stable (events events' : list event) :
  events ≡ₚ events' →
  list_to_set (ODict.keys (merge_events events))
    =@{gset (str * str)} list_to_set (ODict.keys (merge_events events')) ∧
  (∀ k, is_Some (ODict.get k (merge_events events))
        ↔ is_Some (ODict.get k (merge_events events'))) ∧
  (∀ k m m',
     ODict.get k (merge_events events) = Some m →
     ODict.get k (merge_events events') = Some m' →
     segments m ≡ₚ segments m' ∧
     list_to_set (segments m) =@{gset str} list_to_set (segments m')).
Proof.
  intros Hperm.
  assert (∀ k, k ∈ ODict.keys (merge_events events)
               ↔ k ∈ ODict.keys (merge_events events')) as Hkeys.
  { intros k. rewrite !merge_events_keys.
    split; intros (e & Hin & Hk); exists e; split; try done.
    - by rewrite <- Hperm.
    - by rewrite Hperm. }
  split_and!.
  - apply set_eq. intros k. by rewrite !elem_of_list_to_set.
  - intros k. by rewrite !get_Some_keys.
  - intros k m m'. rewrite !get_merge_events. intros Hm Hm'.
    assert (window k events ≡ₚ window k events') as Hw.
    { unfold window. by rewrite Hperm. }
    assert (segments m ≡ₚ segments m') as Hsegs.
    { destruct (window k events) as [|e0 es]; [done|].
      destruct (window k events') as [|e0' es']; [done|].
      simpl in Hm, Hm'. injection Hm as <-. injection Hm' as <-.
      unfold segments at 1 2. simpl.
      destruct es as [|e1 es].
      - apply Permutation_singleton_l in Hw. by injection Hw as <- <-.
      - destruct es' as [|e1' es'].
        { symmetry in Hw. by apply Permutation_singleton_l in Hw. }
        destruct (segments_fold_titles (title e0) (e1 :: es)) as [Hnd Hel]; [done|].
        destruct (segments_fold_titles (title e0') (e1' :: es')) as [Hnd' Hel']; [done|].
        apply NoDup_Permutation; [done..|]. intros x. rewrite Hel, Hel'.
        assert (∀ (a : event) l, (x ∈ split DELIM (title a) ∨ ∃ e, e ∈ l ∧ x ∈ segments e)
                     ↔ ∃ e, e ∈ a :: l ∧ x ∈ segments e) as Hflat.
        { intros a l. split.
          - intros [H|(e & Hin & H)].
            + exists a. split; [apply elem_of_cons; by left | done].
            + exists e. split; [apply elem_of_cons; by right | done].
          - intros (e & [->|Hin]%elem_of_cons & H); [by left|]. right. by exists e. }
        rewrite !Hflat.
        split; intros (e & Hin & H); exists e; split; try done.
        + by rewrite <- Hw.
        + by rewrite Hw. }
    split; [done|]. apply set_eq. intros x. rewrite !elem_of_list_to_set. by rewrite Hsegs.
Qed.

(** Three banners of one window, titled "A、B", "C" and "B", in two orders:
    the merged titles are "A、B、C" and "C、B、A". *)
Lemma merge_events_order_stable_witness :
  let s := Sample.at_ 2024 3 1 10 0 0 in
  let e := Sample.at_ 2024 3 22 10 0 0 in
  let k := (py "2024-03-01T10:00:00", py "2024-03-22T10:00:00") in
  let ab := Event (py "A、B") s e [] in
  let c := Event (py "C") s e [] in
  let b := Event (py "B") s e [] in
  let m := Event (py "A、B、C") s e [] in
  let m' := Event (py "C、B、A") s e [] in
  [ab; c; b] ≡ₚ [c; b; ab] ∧
  ODict.get k (merge_events [ab; c; b]) = Some m ∧
  ODict.get k (merge_events [c; b; ab]) = Some m' ∧
  segments m ≡ₚ segments m' ∧
  list_to_set (segments m) =@{gset str} list_to_set (segments m').
Proof.
  intros s e k ab c b m m'.
  assert ([ab; c; b] ≡ₚ [c; b; ab]) as Hperm.
  { change [ab; c; b] with ([ab] ++ [c; b]). change [c; b; ab] with ([c; b] ++ [ab]).
    apply Permutation_app_comm. }
  assert (ODict.get k (merge_events [ab; c; b]) = Some m) as H1 by (vm_compute; reflexivity).
  assert (ODict.get k (merge_events [c; b; ab]) = Some m') as H2 by (vm_compute; reflexivity).
  split_and!.
  - exact Hperm.
  - exact H1.
  - exact H2.
  - exact (proj1 (proj2 (proj2 (merge_events_order_stable _ _ Hperm)) k m m' H1 H2)).
  - exact (proj2 (proj2 (proj2 (merge_events_order_stable _ _ Hperm)) k m m' H1 H2)).
Defined.

(* ===================================================================== *)
(** ** The title derived from the agents of a post *)
(* ===================================================================== *)

Lemma join_cons_nonempty (sep x : str) (l : list str) : x ≠ [] → join sep (x :: l) ≠ [].
Proof.
  intros Hx. destruct l as [|y l]; simpl; [done|].
  destruct x; [done|]. discriminate.
Qed.

Lemma agent_text_nonempty m : agent_text m ≠ [].
Proof.
  unfold agent_text. intros H.
  apply app_eq_nil in H as [_ H]. apply app_eq_nil in H as [H _].
  vm_compute in H. discriminate H.
Qed.

Lemma extract_agents_title_nonempty body s :
  _extract_agents_title body = Some s → s ≠ [].
Proof.
  unfold _extract_agents_title.
  destruct (findall AGENTS_PATTERN body) as [|m ms]; [done|].
  intros Hs. injection Hs as <-. rewrite dict_fromkeys_dedup.
  change (map agent_text (m :: ms)) with (agent_text m :: map agent_text ms).
  cbn [dedup_first_seen]. apply join_cons_nonempty, agent_text_nonempty.
Qed.

Lemma dedup_first_seen_elem l x : x ∈ dedup_first_seen l ↔ x ∈ l.
Proof. by rewrite <- dict_fromkeys_dedup, dict_fromkeys_elem. Qed.

Lemma dedup_first_seen_NoDup l : NoDup (dedup_first_seen l).
Proof. rewrite <- dict_fromkeys_dedup. apply dict_fromkeys_NoDup. Qed.

Lemma dedup_first_seen_sublist l : dedup_first_seen l `sublist_of` l.
Proof.
  induction l as [|x l IH]; simpl; [done|].
  apply sublist_skip. etrans; [apply sublist_filter | done].
Qed.

(** C6. When the content holds bracket pairs [[name(qualifier)]], the title
    of the post is replaced by the texts [name(qualifier)] of the pairs, in
    the order they occur, each kept at its first occurrence and dropped
    afterwards (so no text occurs twice and none is lost), joined by 、; when it
    holds none, the title of the post is kept. The event that
    [parse_post_content] produces carries this title. The pairs
    [[A(B)][C(D)][A(B)]] give "A(B)、C(D)". *)
Theorem derived_title (t body : str) :
  let pairs := map agent_text (findall AGENTS_PATTERN body) in
  (findall AGENTS_PATTERN body ≠ [] →
     or_else (_extract_agents_title body) t = join [DELIM] (dedup_first_seen pairs) ∧
     NoDup (dedup_first_seen pairs) ∧
     (∀ x, x ∈ dedup_first_seen pairs ↔ x ∈ pairs) ∧
     dedup_first_seen pairs `sublist_of` pairs) ∧
  (findall AGENTS_PATTERN body = [] → or_else (_extract_agents_title body) t = t) ∧
  (∀ E w ev w', parse_post_content E (Page t body) w = (Some ev, w') →
     title ev = or_else (_extract_agents_title body) t) ∧
  or_else (_extract_agents_title (py "[A(B)][C(D)][A(B)]")) t = py "A(B)、C(D)".
Proof.
  intros pairs. split_and!.
  - intros Hne. split_and!.
    + destruct (_extract_agents_title body) as [s|] eqn:Hs.
      * pose proof (extract_agents_title_nonempty body s Hs) as Hs'.
        unfold _extract_agents_title in Hs. fold pairs in Hs.
        destruct (findall AGENTS_PATTERN body) as [|m ms]; [done|].
        injection Hs as <-. rewrite dict_fromkeys_dedup in *.
        unfold or_else. by destruct (join [DELIM] (dedup_first_seen pairs)).
      * unfold _extract_agents_title in Hs.
        by destruct (findall AGENTS_PATTERN body).
    + apply dedup_first_seen_NoDup.
    + apply dedup_first_seen_elem.
    + apply dedup_first_seen_sublist.
  - intros Hnil. unfold _extract_agents_title. by rewrite Hnil.
  - intros E w ev w' Hp.
    destruct (_is_valid_post_content t body) eqn:Hgate.
    + destruct body as [|c body]; [done|].
      rewrite parse_post_content_valid in Hp by done.
      destruct (_extract_event_time E (c :: body) w) as [[[[s e]|]|x] w'']; [|done..].
      by injection Hp as <- _.
    + by rewrite parse_post_content_invalid in Hp.
  - vm_compute. reflexivity.
Qed.

(** A post with the three pairs of the specification and a window, and a post
    with a window and no pair. *)
Lemma derived_title_witness :
  let body := py "代理人 [A(B)][C(D)][A(B)] 2024/3/1 10:00:00 ~ 2024/3/22 10:00:00" in
  let plain := py "代理人 2024/3/1 10:00:00 ~ 2024/3/22 10:00:00" in
  let s := Sample.at_ 2024 3 1 10 0 0 in
  let e := Sample.at_ 2024 3 22 10 0 0 in
  (findall AGENTS_PATTERN body = [[py "A"; py "B"]; [py "C"; py "D"]; [py "A"; py "B"]] ∧
   findall AGENTS_PATTERN body ≠ [] ∧
   or_else (_extract_agents_title body) (py "调频说明")
   = join [DELIM] (dedup_first_seen [py "A(B)"; py "C(D)"; py "A(B)"]) ∧
   join [DELIM] (dedup_first_seen [py "A(B)"; py "C(D)"; py "A(B)"]) = py "A(B)、C(D)") ∧
  (findall AGENTS_PATTERN plain = [] ∧
   or_else (_extract_agents_title plain) (py "调频说明") = py "调频说明") ∧
  (parse_post_content Sample.E (Page (py "调频说明") body) Sample.w0
   = (Some (Event (py "A(B)、C(D)") s e []), Sample.w0) ∧
   py "A(B)、C(D)" = or_else (_extract_agents_title body) (py "调频说明")).
Proof.
  intros body plain s e.
  assert (findall AGENTS_PATTERN body = [[py "A"; py "B"]; [py "C"; py "D"]; [py "A"; py "B"]])
    as Hall by (vm_compute; reflexivity).
  assert (findall AGENTS_PATTERN body ≠ []) as Hne by (rewrite Hall; discriminate).
  assert (findall AGENTS_PATTERN plain = []) as Hnil by (vm_compute; reflexivity).
  assert (parse_post_content Sample.E (Page (py "调频说明") body) Sample.w0
          = (Some (Event (py "A(B)、C(D)") s e []), Sample.w0)) as Hp
    by (vm_compute; reflexivity).
  split_and!.
  - exact Hall.
  - exact Hne.
  - rewrite (proj1 (proj1 (derived_title (py "调频说明") body) Hne)).
    rewrite Hall. vm_compute. reflexivity.
  - vm_compute. reflexivity.
  - exact Hnil.
  - exact (proj1 (proj2 (derived_title (py "调频说明") plain)) Hnil).
  - exact Hp.
  - exact (proj1 (proj2 (proj2 (derived_title (py "调频说明") body))) Sample.E _ _ _ Hp).
Defined.

(* ===================================================================== *)
(** ** ICSGenerator.add_event *)
(* ===================================================================== *)

Section Calendar.

Implicit Types (d : datetime) (ev : event) (c : calendar).

(** An hour after the start of a window of more than 24 hours, and an hour
    before its end, are datetimes: the two sums cannot overflow. *)
Lemma add_hour_in_range d d' :
  in_range_dt d → in_range_dt d' → micros (hours 24) < micros (sub d' d) →
  add d (hours 1) = Ok (DT (ticks d + micros (hours 1))).
Proof.
  unfold in_range_dt, add, sub, hours, MAX_TICKS, US_PER_DAY, MAXORDINAL, US_PER_SECOND.
  simpl. intros Hd Hd' Hlong.
  rewrite (proj2 (Z.leb_le _ _)) by lia. rewrite (proj2 (Z.ltb_lt _ _)) by lia. done.
Qed.

Lemma sub_hour_in_range d d' :
  in_range_dt d → in_range_dt d' → micros (hours 24) < micros (sub d' d) →
  sub_delta d' (hours 1) = Ok (DT (ticks d' - micros (hours 1))).
Proof.
  unfold in_range_dt, sub_delta, add, sub, hours, MAX_TICKS, US_PER_DAY, MAXORDINAL,
    US_PER_SECOND.
  simpl. intros Hd Hd' Hlong.
  rewrite (proj2 (Z.leb_le _ _)) by lia. rewrite (proj2 (Z.ltb_lt _ _)) by lia.
  simpl. do 2 f_equal.
Qed.

Lemma total_seconds_gt_day (td : timedelta) :
  total_seconds_gt td (24 * 3600) = true ↔ micros (hours 24) < micros td.
Proof.
  unfold total_seconds_gt, hours, US_PER_SECOND. simpl. rewrite Z.ltb_lt. lia.
Qed.

End Calendar.

(** C9. For an event that lasts more than 24 hours, [add_event] adds exactly
    two components to the calendar: one named by the title followed by
    [ 开始], from the start to one hour after it, and one named by the title
    followed by [ 结束], from one hour before the end to the end. For an
    event of at most 24 hours it adds exactly one component, with the title,
    the start and the end of the event. The description is that of the event
    and the zone label is Asia/Shanghai throughout. Start and end are
    datetimes of the years 1 to 9999, as every datetime object is
    ([make_in_range], [strptime_in_range]). *)
Theorem add_event_split (ev : event) (c : calendar) :
  in_range_dt (start_time ev) → in_range_dt (end_time ev) →
  (micros (hours 24) < micros (sub (end_time ev) (start_time ev)) →
     ∃ start_dtend end_dtstart,
       add (start_time ev) (hours 1) = Ok start_dtend ∧
       sub_delta (end_time ev) (hours 1) = Ok end_dtstart ∧
       sub start_dtend (start_time ev) = hours 1 ∧
       sub (end_time ev) end_dtstart = hours 1 ∧
       in_range_dt start_dtend ∧ in_range_dt end_dtstart ∧
       add_event ev c
       = {| properties := properties c;
            components :=
              components c ++
              [ {| summary := title ev ++ py " 开始";
                   dtstart := start_time ev; dtend := start_dtend;
                   entry_description := description ev; tzid := py "Asia/Shanghai" |};
                {| summary := title ev ++ py " 结束";
                   dtstart := end_dtstart; dtend := end_time ev;
                   entry_description := description ev; tzid := py "Asia/Shanghai" |} ] |}) ∧
  (micros (sub (end_time ev) (start_time ev)) ≤ micros (hours 24) →
     add_event ev c
     = {| properties := properties c;
          components :=
            components c ++
            [ {| summary := title ev;
                 dtstart := start_time ev; dtend := end_time ev;
                 entry_description := description ev; tzid := py "Asia/Shanghai" |} ] |}).
Proof.
  intros Hs He. split.
  - intros Hlong.
    exists (DT (ticks (start_time ev) + micros (hours 1))),
           (DT (ticks (end_time ev) - micros (hours 1))).
    pose proof (add_hour_in_range _ _ Hs He Hlong) as Hadd.
    pose proof (sub_hour_in_range _ _ Hs He Hlong) as Hsub.
    split_and!; [done | done | | | | |].
    + unfold sub, hours, US_PER_SECOND. simpl. f_equal. lia.
    + unfold sub, hours, US_PER_SECOND. simpl. f_equal. lia.
    + revert Hs He Hlong.
      unfold in_range_dt, sub, hours, MAX_TICKS, US_PER_DAY, MAXORDINAL, US_PER_SECOND.
      simpl. lia.
    + revert Hs He Hlong.
      unfold in_range_dt, sub, hours, MAX_TICKS, US_PER_DAY, MAXORDINAL, US_PER_SECOND.
      simpl. lia.
    + unfold add_event.
      rewrite (proj2 (total_seconds_gt_day _) Hlong), Hadd, Hsub.
      unfold add_component. simpl. by rewrite <- app_assoc.
  - intros Hshort. unfold add_event.
    destruct (total_seconds_gt _ _) eqn:Hgt; [|done].
    apply total_seconds_gt_day in Hgt. lia.
Qed.

(** A banner of 30 hours and one of 10 hours, both from 1 March 2024,
    10:00. *)
Lemma add_event_split_witness :
  let s := Sample.at_ 2024 3 1 10 0 0 in
  let long := Event (py "A(B)") s (Sample.at_ 2024 3 2 16 0 0) [] in
  let short := Event (py "A(B)") s (Sample.at_ 2024 3 1 20 0 0) [] in
  let zone := py "Asia/Shanghai" in
  (in_range_dt (start_time long) ∧ in_range_dt (end_time long) ∧
   sub (end_time long) (start_time long) = hours 30 ∧
   micros (hours 24) < micros (sub (end_time long) (start_time long)) ∧
   components (add_event long new_calendar)
   = [ Entry (py "A(B) 开始") s (Sample.at_ 2024 3 1 11 0 0) [] zone;
       Entry (py "A(B) 结束") (Sample.at_ 2024 3 2 15 0 0) (Sample.at_ 2024 3 2 16 0 0) [] zone ]) ∧
  (in_range_dt (start_time short) ∧ in_range_dt (end_time short) ∧
   sub (end_time short) (start_time short) = hours 10 ∧
   micros (sub (end_time short) (start_time short)) ≤ micros (hours 24) ∧
   components (add_event short new_calendar)
   = [ Entry (py "A(B)") s (Sample.at_ 2024 3 1 20 0 0) [] zone ]).
Proof.
  intros s long short zone.
  assert (in_range_dt s) as Hs by (vm_compute; split; [intros H; discriminate H | reflexivity]).
  assert (in_range_dt (end_time long)) as Hl by (vm_compute; split; [intros H; discriminate H | reflexivity]).
  assert (in_range_dt (end_time short)) as Hsh by (vm_compute; split; [intros H; discriminate H | reflexivity]).
  assert (micros (hours 24) < micros (sub (end_time long) (start_time long))) as Hlong
    by (vm_compute; reflexivity).
  assert (micros (sub (end_time short) (start_time short)) ≤ micros (hours 24)) as Hshort
    by (vm_compute; intros H; discriminate H).
  split_and!.
  - exact Hs.
  - exact Hl.
  - vm_compute. reflexivity.
  - exact Hlong.
  - destruct (proj1 (add_event_split long new_calendar Hs Hl) Hlong)
      as (d1 & d2 & Hadd & Hsub & _ & _ & _ & _ & ->).
    assert (d1 = Sample.at_ 2024 3 1 11 0 0) as ->.
    { vm_compute in Hadd. injection Hadd as <-. vm_compute. reflexivity. }
    assert (d2 = Sample.at_ 2024 3 2 15 0 0) as ->.
    { vm_compute in Hsub. injection Hsub as <-. vm_compute. reflexivity. }
    vm_compute. reflexivity.
  - exact Hs.
  - exact Hsh.
  - vm_compute. reflexivity.
  - exact Hshort.
  - rewrite (proj2 (add_event_split short new_calendar Hs Hsh) Hshort).
    vm_compute. reflexivity.
Defined.

(* ===================================================================== *)
(** ** The version cache *)
(* ===================================================================== *)

Section Resolver.

Context (E : env).
Implicit Types (w : world) (version : str) (t : datetime).

(** The external lookup leaves the version file alone and adds one request
    to the log. *)
Lemma fetch_world version w r w' :
  _fetch_version_start_time E version w = (r, w') →
  version_file w' = version_file w ∧ writes w' = writes w ∧
  write_attempts w' = write_attempts w ∧
  length (requests w') = S (length (requests w)).
Proof.
  unfold _fetch_version_start_time, try_except, ret.
  assert (∀ a, length (requests w ++ [a]) = S (length (requests w))) as Hlen.
  { intros a. rewrite length_app. simpl. lia. }
  destruct (http_get E _ _) as [|rc posts]; [intros [= <- <-]; simpl; by rewrite Hlen|].
  destruct (rc =? 0); [|intros [= <- <-]; simpl; by rewrite Hlen].
  destruct posts as [|post posts]; [intros [= <- <-]; simpl; by rewrite Hlen|].
  destruct (contains _ _); [|intros [= <- <-]; simpl; by rewrite Hlen].
  destruct (fromtimestamp E _); intros [= <- <-]; simpl; by rewrite Hlen.
Qed.

(** A version that is in the file: the answer is what [fromisoformat] makes
    of the entry, and the world is as before. *)
Lemma resolver_hit version w cached :
  default ∅ (version_file w) !! version = Some cached →
  _get_version_start_time E version w
  = (Ok (match cached with JString s => fromisoformat E s | JOther => None end), w).
Proof.
  intros Hc. unfold _get_version_start_time, try_except, bind, _load_version_data, ret, raise.
  rewrite Hc. destruct cached as [s|]; [|done]. by destruct (fromisoformat E s).
Qed.

(** A version that is not in the file: the answer is that of the external
    lookup, which is written to the file when it is a timestamp. *)
Lemma resolver_miss version w :
  default ∅ (version_file w) !! version = None →
  _get_version_start_time E version w
  = match _fetch_version_start_time E version w with
    | (Ok (Some t), w') =>
      (Ok (Some t), snd (_save_version_data E version t (default ∅ (version_file w)) w'))
    | (_, w') => (Ok None, w')
    end.
Proof.
  intros Hc. unfold _get_version_start_time, try_except, bind, _load_version_data, ret, raise.
  rewrite Hc. destruct (_fetch_version_start_time E version w) as [[[t|]|x] w']; [|done..].
  unfold _save_version_data. by destruct (disk_write E _).
Qed.

(** A call writes the file at most once, and when it does the version was
    not in the file before and is in it afterwards, with the ISO form of the
    answer. *)
Lemma resolver_writes version w r w' :
  _get_version_start_time E version w = (r, w') →
  (writes w' = writes w) ∨
  (writes w' = S (writes w) ∧ default ∅ (version_file w) !! version = None ∧
   ∃ t, r = Ok (Some t) ∧
        default ∅ (version_file w') !! version = Some (JString (isoformat t))).
Proof.
  destruct (default ∅ (version_file w) !! version) as [cached|] eqn:Hc.
  - rewrite (resolver_hit _ _ _ Hc). intros [= <- <-]. by left.
  - rewrite (resolver_miss _ _ Hc).
    destruct (_fetch_version_start_time E version w) as [r0 w0] eqn:Hf.
    destruct (fetch_world _ _ _ _ Hf) as (Hfile & Hwr & _ & _).
    destruct r0 as [[t|]|x]; [|intros [= <- <-]; by left..].
    unfold _save_version_data. destruct (disk_write E _); intros [= <- <-]; simpl.
    + right. split_and!; [by rewrite Hwr | done |]. exists t. split; [done|].
      apply lookup_insert_eq.
    + by left.
    + by left.
Qed.

End Resolver.

(** C10. A version that is in the loaded version file with a timestamp that
    [fromisoformat] accepts resolves to that timestamp, and the world is left as
    it was: no request is made and nothing is written. When the entry is not a
    timestamp that [fromisoformat] accepts, the answer is [None], again with the
    world as it was, so without a request. Hence, once a call has answered
    with a timestamp and the version is in the file (it was there, or the call
    put it there), the next call gives the same timestamp and changes nothing;
    and two calls in a row write the file at most once in all. *)
Theorem version_cache_hit (E : env) (version : str) (w : world) :
  (∀ s t, default ∅ (version_file w) !! version = Some (JString s) →
     fromisoformat E s = Some t →
     _get_version_start_time E version w = (Ok (Some t), w)) ∧
  (∀ cached, default ∅ (version_file w) !! version = Some cached →
     cached = JOther ∨ (∃ s, cached = JString s ∧ fromisoformat E s = None) →
     _get_version_start_time E version w = (Ok None, w)) ∧
  (∀ t w1, _get_version_start_time E version w = (Ok (Some t), w1) →
     is_Some (default ∅ (version_file w1) !! version) →
     fromisoformat E (isoformat t) = Some t →
     _get_version_start_time E version w1 = (Ok (Some t), w1) ∧
     (writes w1 ≤ writes w + 1)%nat) ∧
  (∀ r1 w1 r2 w2,
     _get_version_start_time E version w = (r1, w1) →
     _get_version_start_time E version w1 = (r2, w2) →
     (writes w2 ≤ writes w + 1)%nat).
Proof.
  split_and!.
  - intros s t Hc Ht. rewrite (resolver_hit E _ _ _ Hc). by rewrite Ht.
  - intros cached Hc Hbad. rewrite (resolver_hit E _ _ _ Hc).
    destruct Hbad as [->|(s & -> & ->)]; done.
  - intros t w1 H1 Hin Hiso.
    destruct (default ∅ (version_file w) !! version) as [cached|] eqn:Hc.
    + rewrite (resolver_hit E _ _ _ Hc) in H1. injection H1 as H1 <-.
      split; [|lia]. rewrite (resolver_hit E _ _ _ Hc). by rewrite H1.
    + destruct (resolver_writes E _ _ _ _ H1) as [Hsame|(Hw & _ & t' & [= <-] & Hnew)].
      * exfalso. rewrite (resolver_miss E _ _ Hc) in H1.
        destruct (_fetch_version_start_time E version w) as [r0 w0] eqn:Hf.
        destruct (fetch_world E _ _ _ _ Hf) as (Hfile & Hwr & _ & _).
        destruct r0 as [[t0|]|x]; [|done..].
        unfold _save_version_data in H1.
        destruct (disk_write E _); injection H1 as _ <-; simpl in *.
        -- lia.
        -- rewrite Hfile, Hc in Hin. by destruct Hin.
        -- rewrite lookup_empty in Hin. by destruct Hin.
      * split; [|lia]. rewrite (resolver_hit E _ _ _ Hnew). by rewrite Hiso.
  - intros r1 w1 r2 w2 H1 H2.
    destruct (resolver_writes E _ _ _ _ H1) as [Hsame|(Hw & _ & t' & _ & Hnew)].
    + destruct (resolver_writes E _ _ _ _ H2) as [Hsame2|(Hw2 & _)]; lia.
    + rewrite (resolver_hit E _ _ _ Hnew) in H2. injection H2 as _ <-. lia.
Qed.

(** Version 1.5 with the file that knows it; with files that hold the text
    [soon] or a number for it; and, from an empty start, two calls in a row:
    the first asks the search API and writes the file, the second reads the
    file. *)
Lemma version_cache_hit_witness :
  let v := py "1.5" in
  let t := Sample.at_ 2024 3 15 12 0 0 in
  let w_text :=
    {| version_file := Some {[ v := JString (py "soon") ]};
       requests := []; write_attempts := 0; writes := 0 |} in
  let w_number :=
    {| version_file := Some {[ v := JOther ]};
       requests := []; write_attempts := 0; writes := 0 |} in
  let w1 :=
    {| version_file := Some {[ v := JString (py "2024-03-15T12:00:00") ]};
       requests := [API_BASE_URL ++ py "?keyword=【绝区零绳网情报站】1.5版本&size=1"];
       write_attempts := 1; writes := 1 |} in
  (default ∅ (version_file Sample.w_cached) !! v = Some (JString (py "2024-03-15T12:00:00")) ∧
   fromisoformat Sample.E (py "2024-03-15T12:00:00") = Some t ∧
   _get_version_start_time Sample.E v Sample.w_cached = (Ok (Some t), Sample.w_cached)) ∧
  (fromisoformat Sample.E (py "soon") = None ∧
   _get_version_start_time Sample.E v w_text = (Ok None, w_text) ∧
   _get_version_start_time Sample.E v w_number = (Ok None, w_number)) ∧
  (_get_version_start_time Sample.E v Sample.w0 = (Ok (Some t), w1) ∧
   is_Some (default ∅ (version_file w1) !! v) ∧
   fromisoformat Sample.E (isoformat t) = Some t ∧
   _get_version_start_time Sample.E v w1 = (Ok (Some t), w1) ∧
   (writes w1 ≤ writes Sample.w0 + 1)%nat).
Proof.
  intros v t w_text w_number w1.
  assert (default ∅ (version_file Sample.w_cached) !! v
          = Some (JString (py "2024-03-15T12:00:00"))) as Hc by (vm_compute; reflexivity).
  assert (fromisoformat Sample.E (py "2024-03-15T12:00:00") = Some t) as Ht
    by (vm_compute; reflexivity).
  assert (fromisoformat Sample.E (py "soon") = None) as Hsoon by (vm_compute; reflexivity).
  assert (default ∅ (version_file w_text) !! v = Some (JString (py "soon"))) as Htext
    by (vm_compute; reflexivity).
  assert (default ∅ (version_file w_number) !! v = Some JOther) as Hnum
    by (vm_compute; reflexivity).
  assert (_get_version_start_time Sample.E v Sample.w0 = (Ok (Some t), w1)) as H1
    by (vm_compute; reflexivity).
  assert (is_Some (default ∅ (version_file w1) !! v)) as Hin
    by (exists (JString (py "2024-03-15T12:00:00")); vm_compute; reflexivity).
  assert (fromisoformat Sample.E (isoformat t) = Some t) as Hiso by (vm_compute; reflexivity).
  split_and!.
  - exact Hc.
  - exact Ht.
  - exact (proj1 (version_cache_hit Sample.E v Sample.w_cached) _ t Hc Ht).
  - exact Hsoon.
  - exact (proj1 (proj2 (version_cache_hit Sample.E v w_text)) _ Htext
             (or_intror (ex_intro _ (py "soon") (conj eq_refl Hsoon)))).
  - exact (proj1 (proj2 (version_cache_hit Sample.E v w_number)) _ Hnum (or_introl eq_refl)).
  - exact H1.
  - exact Hin.
  - exact Hiso.
  - exact (proj1 (proj1 (proj2 (proj2 (version_cache_hit Sample.E v Sample.w0))) t w1 H1 Hin Hiso)).
  - exact (proj2 (proj2 (proj2 (version_cache_hit Sample.E v Sample.w0))) _ _ _ _ H1
             (proj1 (proj1 (proj2 (proj2 (version_cache_hit Sample.E v Sample.w0)))
                       t w1 H1 Hin Hiso))).
Defined.

(* ===================================================================== *)
(** ** More on merge_events *)
(* ===================================================================== *)

Section FirstSeen.

Context {A : Type} `{EqDecision A}.
Implicit Types (x : A) (l : list A).

Lemma first_seen_elem l x : x ∈ first_seen l ↔ x ∈ l.
Proof.
  induction l as [|y l IH]; simpl; [done|].
  rewrite !elem_of_cons, list_elem_of_filter, IH.
  destruct (decide (x = y)) as [->|Hne]; [split; by left|].
  split; [intros [?|[_ H]]; [done | by right] | intros [?|H]; [done | by right]].
Qed.

Lemma first_seen_snoc l x :
  first_seen (l ++ [x]) = if decide (x ∈ l) then first_seen l else first_seen l ++ [x].
Proof.
  induction l as [|y l IH].
  - simpl. destruct (decide (x ∈ [])) as [Hin|_]; [by apply not_elem_of_nil in Hin | done].
  - cbn [app first_seen]. rewrite IH.
    destruct (decide (x ∈ l)) as [Hin|Hnin].
    + destruct (decide (x ∈ y :: l)) as [_|Hn]; [done|].
      exfalso. apply Hn, elem_of_cons. by right.
    + rewrite filter_app. destruct (decide (x = y)) as [->|Hne].
      * rewrite filter_cons_False, filter_nil, app_nil_r by (intros H; by apply H).
        destruct (decide (y ∈ y :: l)) as [_|Hn]; [done|].
        exfalso. apply Hn, elem_of_cons. by left.
      * rewrite filter_cons_True, filter_nil by done.
        destruct (decide (x ∈ y :: l)) as [Hin|_]; [|done].
        by apply elem_of_cons in Hin as [?|?].
Qed.

Lemma first_seen_length l : (length (first_seen l) ≤ length l)%nat.
Proof.
  induction l as [|y l IH]; simpl; [lia|].
  pose proof (length_filter (λ z, z ≠ y) (first_seen l)). lia.
Qed.

End FirstSeen.

Section MergeMore.

Implicit Types (e : event) (events g : list event) (k : str * str).

Lemma get_Some_elem {K V} `{EqDecision K} (k : K) (v : V) (d : list (K * V)) :
  ODict.get k d = Some v → (k, v) ∈ d.
Proof.
  induction d as [|[k' v'] d IH]; simpl; [done|].
  destruct (decide (k = k')) as [->|Hne].
  - intros [= ->]. apply elem_of_cons. by left.
  - intros H. apply elem_of_cons. right. by apply IH.
Qed.

Lemma set_elem {K V} `{EqDecision K} (k k0 : K) (v v0 : V) (d : list (K * V)) :
  (k0, v0) ∈ ODict.set k v d → (k0, v0) = (k, v) ∨ (k0, v0) ∈ d.
Proof.
  induction d as [|[k' v'] d IH]; simpl.
  - intros ->%list_elem_of_singleton. by left.
  - destruct (decide (k = k')) as [->|Hne].
    + intros [->|H]%elem_of_cons; [by left|]. right. apply elem_of_cons. by right.
    + intros [->|H]%elem_of_cons.
      * right. apply elem_of_cons. by left.
      * destruct (IH H) as [?|?]; [by left|]. right. apply elem_of_cons. by right.
Qed.

Lemma set_absent {K V} `{EqDecision K} (k : K) (v : V) (d : list (K * V)) :
  k ∉ ODict.keys d → ODict.set k v d = d ++ [(k, v)].
Proof.
  unfold ODict.keys. induction d as [|[k' v'] d IH]; simpl; [done|].
  intros Hnin. destruct (decide (k = k')) as [->|Hne].
  - exfalso. apply Hnin, elem_of_cons. by left.
  - rewrite IH; [done|]. intros H. apply Hnin, elem_of_cons. by right.
Qed.

Lemma merge_step_keys (d : list ((str * str) * event)) e :
  ODict.keys (merge_step d e)
  = if decide (time_key e ∈ ODict.keys d) then ODict.keys d else ODict.keys d ++ [time_key e].
Proof.
  unfold merge_step. by destruct (ODict.get (time_key e) d); rewrite keys_set.
Qed.

Lemma merge_events_keys_first_seen events :
  ODict.keys (merge_events events) = first_seen (map time_key events).
Proof.
  induction events as [|e events IH] using rev_ind; [done|].
  rewrite merge_events_snoc, merge_step_keys, map_app.
  change (map time_key [e]) with [time_key e]. rewrite first_seen_snoc, IH.
  destruct (decide (time_key e ∈ first_seen (map time_key events))) as [Hin|Hnin];
    destruct (decide (time_key e ∈ map time_key events)) as [Hin'|Hnin']; try done.
  - exfalso. by apply Hnin', first_seen_elem.
  - exfalso. by apply Hnin, first_seen_elem.
Qed.

Lemma merge_events_key_of_value events k v :
  (k, v) ∈ merge_events events → k = time_key v.
Proof.
  revert k v. induction events as [|e events IH] using rev_ind; intros k v.
  - intros H. by apply not_elem_of_nil in H.
  - rewrite merge_events_snoc. unfold merge_step.
    destruct (ODict.get (time_key e) (merge_events events)) as [existing|] eqn:Hg.
    + intros [[= -> ->]|H]%set_elem; [|by apply IH].
      apply get_Some_elem in Hg. by apply IH in Hg.
    + intros [[= -> ->]|H]%set_elem; [done | by apply IH].
Qed.

Lemma remerge (d : list ((str * str) * event)) :
  NoDup (ODict.keys d) → (∀ k v, (k, v) ∈ d → k = time_key v) →
  merge_events (map snd d) = d.
Proof.
  induction d as [|[k v] d IH] using rev_ind; [done|]. intros Hnd Hkey.
  unfold ODict.keys in Hnd. rewrite map_app in Hnd. apply NoDup_app in Hnd as (Hnd & Hdisj & _).
  rewrite map_app. simpl. rewrite merge_events_snoc, IH; [|done|].
  - assert (k = time_key v) as -> by (apply Hkey, elem_of_app; right; by apply list_elem_of_singleton).
    assert (time_key v ∉ ODict.keys d) as Hnin.
    { intros Hin. apply (Hdisj _ Hin). simpl. by apply list_elem_of_singleton. }
    unfold merge_step.
    destruct (ODict.get (time_key v) d) as [x|] eqn:Hg.
    + exfalso. apply Hnin, get_Some_keys. by eexists.
    + by apply set_absent.
  - intros k' v' Hin. apply Hkey, elem_of_app. by left.
Qed.

Lemma merge_group_segments g m :
  merge_group g = Some m → ∀ x, x ∈ segments m ↔ ∃ e, e ∈ g ∧ x ∈ segments e.
Proof.
  destruct g as [|e0 es]; [done|]. intros [= <-] x. unfold segments at 1. simpl.
  destruct es as [|e1 es].
  - simpl. split.
    + intros H. exists e0. split; [by apply list_elem_of_singleton | done].
    + by intros (e & ->%list_elem_of_singleton & H).
  - destruct (segments_fold_titles (title e0) (e1 :: es)) as [_ Hel]; [done|].
    rewrite Hel. split.
    + intros [H|(e & Hin & H)].
      * exists e0. split; [apply elem_of_cons; by left | done].
      * exists e. split; [apply elem_of_cons; by right | done].
    + intros (e & [->|Hin]%elem_of_cons & H); [by left|]. right. by exists e.
Qed.

Lemma window_elem k events e : e ∈ window k events ↔ e ∈ events ∧ time_key e = k.
Proof. unfold window. rewrite list_elem_of_filter. tauto. Qed.

End MergeMore.

(** X1. The merged dict lists the windows in the order in which they first
    occur in the input, each once; so it has at most as many entries as there
    are events, and none for no event. *)
Theorem merge_events_window_order (events : list event) :
  ODict.keys (merge_events events) = first_seen (map time_key events) ∧
  (length (merge_events events) ≤ length events)%nat ∧
  (merge_events events = [] ↔ events = []).
Proof.
  pose proof (merge_events_keys_first_seen events) as Hk. split_and!; [done | |].
  - rewrite <- (length_map fst (merge_events events)).
    fold (ODict.keys (merge_events events)). rewrite Hk.
    etrans; [apply first_seen_length|]. by rewrite length_map.
  - split; [|by intros ->]. intros Hnil. rewrite Hnil in Hk.
    destruct events as [|e events]; [done|]. discriminate Hk.
Qed.

(** X2. Every entry of the merged dict is filed under the window of its own
    value, and merging the merged events again changes nothing. *)
Theorem merge_events_idempotent (events : list event) :
  (∀ k v, (k, v) ∈ merge_events events → k = time_key v) ∧
  merge_events (map snd (merge_events events)) = merge_events events.
Proof.
  split.
  - apply merge_events_key_of_value.
  - apply remerge; [apply merge_events_keys_NoDup | apply merge_events_key_of_value].
Qed.

(** Four banners on two windows. *)
Lemma merge_events_idempotent_witness :
  let s := Sample.at_ 2024 3 1 10 0 0 in
  let e := Sample.at_ 2024 3 22 10 0 0 in
  let e' := Sample.at_ 2024 3 23 10 0 0 in
  let events := [Event (py "A") s e []; Event (py "C") s e' []; Event (py "B、A") s e [];
                 Event (py "C") s e' []] in
  let m := Event (py "A、B") s e [] in
  let k := (py "2024-03-01T10:00:00", py "2024-03-22T10:00:00") in
  (k, m) ∈ merge_events events ∧ k = time_key m ∧
  merge_events [m; Event (py "C") s e' []] = merge_events events.
Proof.
  intros s e e' events m k.
  assert (merge_events events = [(k, m); (time_key (Event (py "C") s e' []), Event (py "C") s e' [])])
    as Hm by (vm_compute; reflexivity).
  assert ((k, m) ∈ merge_events events) as Hin by (rewrite Hm; apply elem_of_cons; by left).
  split_and!.
  - exact Hin.
  - exact (proj1 (merge_events_idempotent events) k m Hin).
  - pose proof (proj2 (merge_events_idempotent events)) as H. rewrite Hm in H at 1. exact H.
Defined.

(** X3. No title is lost and none is invented: the merged title of a window
    holds every segment of the title of every event of that window, and each
    of its segments comes from such an event. *)
Theorem merge_events_keeps_segments (events : list event) :
  (∀ e, e ∈ events →
     ∃ m, ODict.get (time_key e) (merge_events events) = Some m ∧
          ∀ x, x ∈ segments e → x ∈ segments m) ∧
  (∀ k m x, ODict.get k (merge_events events) = Some m → x ∈ segments m →
     ∃ e, e ∈ events ∧ time_key e = k ∧ x ∈ segments e).
Proof.
  split.
  - intros e Hin. rewrite get_merge_events.
    assert (e ∈ window (time_key e) events) as Hw by by apply window_elem.
    destruct (merge_group (window (time_key e) events)) as [m|] eqn:Hm.
    + exists m. split; [done|]. intros x Hx.
      apply (merge_group_segments _ _ Hm). by exists e.
    + destruct (window (time_key e) events); [by apply not_elem_of_nil in Hw | done].
  - intros k m x Hm Hx. rewrite get_merge_events in Hm.
    apply (merge_group_segments _ _ Hm) in Hx as (e & [Hin Hk]%window_elem & Hx).
    by exists e.
Qed.

(** Banners "A" and "B、A" on one window: both "A" and "B" are in the merged
    title "A、B". *)
Lemma merge_events_keeps_segments_witness :
  let s := Sample.at_ 2024 3 1 10 0 0 in
  let e := Sample.at_ 2024 3 22 10 0 0 in
  let a := Event (py "A") s e [] in
  let ba := Event (py "B、A") s e [] in
  let m := Event (py "A、B") s e [] in
  ba ∈ [a; ba] ∧ ODict.get (time_key ba) (merge_events [a; ba]) = Some m ∧
  py "B" ∈ segments ba ∧ py "B" ∈ segments m ∧
  ∃ x, x ∈ [a; ba] ∧ time_key x = time_key ba ∧ py "B" ∈ segments x.
Proof.
  intros s e a ba m.
  assert (ba ∈ [a; ba]) as Hin by (apply elem_of_cons; right; apply elem_of_cons; by left).
  assert (ODict.get (time_key ba) (merge_events [a; ba]) = Some m) as Hget
    by (vm_compute; reflexivity).
  assert (py "B" ∈ segments ba) as Hseg by (vm_compute; apply elem_of_cons; by left).
  destruct (proj1 (merge_events_keeps_segments [a; ba]) ba Hin) as (m' & Hget' & Hsub).
  assert (m' = m) as -> by congruence.
  split_and!.
  - exact Hin.
  - exact Hget.
  - exact Hseg.
  - exact (Hsub _ Hseg).
  - exact (proj2 (merge_events_keeps_segments [a; ba]) _ m _ Hget (Hsub _ Hseg)).
Defined.

(** X4. Titles are only rewritten on a collision: an event that is alone on
    its window is returned as it is, duplicate segments included, while the
    title of a window with two or more events has no segment twice. *)
Theorem merge_events_lone_event (events : list event) (k : str * str) :
  (∀ e, window k events = [e] → ODict.get k (merge_events events) = Some e) ∧
  (∀ m, ODict.get k (merge_events events) = Some m → (2 ≤ length (window k events))%nat →
     NoDup (segments m)).
Proof.
  split.
  - intros e Hw. rewrite get_merge_events, Hw. simpl. by rewrite set_title_title.
  - intros m Hm Hlen. rewrite get_merge_events in Hm.
    destruct (window k events) as [|e0 [|e1 es]]; simpl in Hlen; [lia | lia |].
    injection Hm as <-.
    by destruct (segments_fold_titles (title e0) (e1 :: es)) as [Hnd _].
Qed.

(** A banner "A、A" alone on its window keeps its title; next to a banner "B"
    on a second window that holds two, whose title becomes "B". *)
Lemma merge_events_lone_event_witness :
  let s := Sample.at_ 2024 3 1 10 0 0 in
  let e := Sample.at_ 2024 3 22 10 0 0 in
  let e' := Sample.at_ 2024 3 23 10 0 0 in
  let aa := Event (py "A、A") s e [] in
  let bb := Event (py "B、B") s e' [] in
  let events := [aa; bb; bb] in
  (window (time_key aa) events = [aa] ∧
   ODict.get (time_key aa) (merge_events events) = Some aa) ∧
  (ODict.get (time_key bb) (merge_events events) = Some (Event (py "B") s e' []) ∧
   (2 ≤ length (window (time_key bb) events))%nat ∧
   NoDup (segments (Event (py "B") s e' []))).
Proof.
  intros s e e' aa bb events.
  assert (window (time_key aa) events = [aa]) as Hw by (vm_compute; reflexivity).
  assert (ODict.get (time_key bb) (merge_events events) = Some (Event (py "B") s e' []))
    as Hget by (vm_compute; reflexivity).
  assert (2 ≤ length (window (time_key bb) events))%nat as Hlen
    by (vm_compute; apply le_n).
  split_and!.
  - exact Hw.
  - exact (proj1 (merge_events_lone_event events (time_key aa)) aa Hw).
  - exact Hget.
  - exact Hlen.
  - exact (proj2 (merge_events_lone_event events (time_key bb)) _ Hget Hlen).
Defined.

(** Two banners on one window between two others, each on its own. *)
Lemma merge_events_window_order_witness :
  let s := Sample.at_ 2024 3 1 10 0 0 in
  let ev d t := Event t s (Sample.at_ 2024 3 d 10 0 0) [] in
  let events := [ev 22 (py "A"); ev 23 (py "B"); ev 22 (py "C"); ev 21 (py "D")] in
  ODict.keys (merge_events events)
  = [time_key (ev 22 (py "A")); time_key (ev 23 (py "B")); time_key (ev 21 (py "D"))] ∧
  merge_events events ≠ [].
Proof.
  intros s ev events. split.
  - rewrite (proj1 (merge_events_window_order _)). vm_compute. reflexivity.
  - intros H. apply (proj2 (proj2 (merge_events_window_order _))) in H. discriminate H.
Defined.

(* ===================================================================== *)
(** ** More on add_event *)
(* ===================================================================== *)

Section CalendarMore.

Implicit Types (ev : event) (c : calendar) (x : entry).

(** What [add_event] adds for an event does not depend on the calendar. *)
Lemma add_event_shape ev c :
  add_event ev c
  = {| properties := properties c;
       components := components c ++ components (add_event ev new_calendar) |} ∧
  (length (components (add_event ev new_calendar)) ≤ 2)%nat ∧
  Forall (λ x, tzid x = py "Asia/Shanghai" ∧ entry_description x = description ev ∧
               (summary x = title ev ∨ summary x = title ev ++ py " 开始" ∨
                summary x = title ev ++ py " 结束"))
         (components (add_event ev new_calendar)).
Proof.
  unfold add_event.
  destruct (total_seconds_gt _ _).
  - destruct (add (start_time ev) (hours 1)) as [d1|x1].
    + destruct (sub_delta (end_time ev) (hours 1)) as [d2|x2].
      * split_and!.
        -- unfold add_component. cbn [properties components new_calendar app].
           rewrite <- app_assoc. reflexivity.
        -- cbn [add_component properties components new_calendar app length]. lia.
        -- cbn [add_component properties components new_calendar app].
           repeat (apply Forall_cons_2; [split_and!; cbn [tzid entry_description summary]; auto|]);
             apply Forall_nil_2.
      * split_and!.
        -- done.
        -- cbn [add_component properties components new_calendar app length]. lia.
        -- cbn [add_component properties components new_calendar app].
           repeat (apply Forall_cons_2; [split_and!; cbn [tzid entry_description summary]; auto|]);
             apply Forall_nil_2.
    + split_and!.
      * destruct c. cbn [properties components new_calendar]. by rewrite app_nil_r.
      * cbn [components new_calendar length]. lia.
      * cbn [components new_calendar]. apply Forall_nil_2.
  - split_and!.
    + done.
    + cbn [add_component properties components new_calendar app length]. lia.
    + cbn [add_component properties components new_calendar app].
      repeat (apply Forall_cons_2; [split_and!; cbn [tzid entry_description summary]; auto|]);
             apply Forall_nil_2.
Qed.


End CalendarMore.

(** X5. [add_event] only appends: it leaves the properties of the calendar and
    the components it already has as they are, adds at most two components,
    the same whatever the calendar holds, and each of them carries the zone
    label Asia/Shanghai, the description of the event, and as its name the
    title, alone or followed by [ 开始] or [ 结束]. This holds for every event,
    also when a sum of datetimes overflows. *)
Theorem add_event_appends (ev : event) (c : calendar) :
  add_event ev c
  = {| properties := properties c;
       components := components c ++ components (add_event ev new_calendar) |} ∧
  (length (components (add_event ev new_calendar)) ≤ 2)%nat ∧
  Forall (λ x, tzid x = py "Asia/Shanghai" ∧ entry_description x = description ev ∧
               (summary x = title ev ∨ summary x = title ev ++ py " 开始" ∨
                summary x = title ev ++ py " 结束"))
         (components (add_event ev new_calendar)).
Proof. apply add_event_shape. Qed.

(** X6. The two markers of an event of more than 24 hours do not overlap and
    lie in the window: the first starts with the event and ends before the
    second starts, which ends with the event; between them lies the
    duration less two hours. *)
Theorem add_event_markers_apart (ev : event) :
  in_range_dt (start_time ev) → in_range_dt (end_time ev) →
  micros (hours 24) < micros (sub (end_time ev) (start_time ev)) →
  ∃ a b, components (add_event ev new_calendar) = [a; b] ∧
    dtstart a = start_time ev ∧ lt (dtstart a) (dtend a) ∧ lt (dtend a) (dtstart b) ∧
    lt (dtstart b) (dtend b) ∧ dtend b = end_time ev ∧
    micros (sub (dtstart b) (dtend a))
    = micros (sub (end_time ev) (start_time ev)) - micros (hours 2).
Proof.
  intros Hs He Hlong. unfold add_event.
  rewrite (proj2 (total_seconds_gt_day _) Hlong).
  rewrite (add_hour_in_range _ _ Hs He Hlong), (sub_hour_in_range _ _ Hs He Hlong).
  eexists _, _. split; [reflexivity|].
  revert Hs He Hlong.
  unfold in_range_dt, lt, sub, hours, MAX_TICKS, US_PER_DAY, MAXORDINAL, US_PER_SECOND.
  cbn [dtstart dtend ticks micros]. intros Hs He Hlong.
  split_and!; [reflexivity | lia | lia | lia | reflexivity | lia].
Qed.

(** A banner of 30 hours: its markers end at 11:00 and start at 15:00 the
    next day, 28 hours apart. *)
Lemma add_event_markers_apart_witness :
  let ev := Event (py "A(B)") (Sample.at_ 2024 3 1 10 0 0) (Sample.at_ 2024 3 2 16 0 0) [] in
  in_range_dt (start_time ev) ∧ in_range_dt (end_time ev) ∧
  micros (hours 24) < micros (sub (end_time ev) (start_time ev)) ∧
  ∃ a b, components (add_event ev new_calendar) = [a; b] ∧
    dtend a = Sample.at_ 2024 3 1 11 0 0 ∧ dtstart b = Sample.at_ 2024 3 2 15 0 0 ∧
    lt (dtend a) (dtstart b) ∧ sub (dtstart b) (dtend a) = hours 28.
Proof.
  intros ev.
  assert (in_range_dt (start_time ev)) as Hs
    by (vm_compute; split; [intros H; discriminate H | reflexivity]).
  assert (in_range_dt (end_time ev)) as He
    by (vm_compute; split; [intros H; discriminate H | reflexivity]).
  assert (micros (hours 24) < micros (sub (end_time ev) (start_time ev))) as Hlong
    by (vm_compute; reflexivity).
  split_and!; [exact Hs | exact He | exact Hlong |].
  destruct (add_event_markers_apart ev Hs He Hlong)
    as (a & b & Hc & _ & _ & Hlt & _ & _ & _).
  exists a, b.
  assert (components (add_event ev new_calendar)
          = [Entry (py "A(B) 开始") (Sample.at_ 2024 3 1 10 0 0) (Sample.at_ 2024 3 1 11 0 0)
               [] (py "Asia/Shanghai");
             Entry (py "A(B) 结束") (Sample.at_ 2024 3 2 15 0 0) (Sample.at_ 2024 3 2 16 0 0)
               [] (py "Asia/Shanghai")]) as Hc' by (vm_compute; reflexivity).
  rewrite Hc in Hc'. injection Hc' as -> ->.
  split_and!.
  - exact Hc.
  - vm_compute. reflexivity.
  - vm_compute. reflexivity.
  - exact Hlt.
  - vm_compute. reflexivity.
Defined.

(* ===================================================================== *)
(** ** More on the version cache *)
(* ===================================================================== *)

Section ResolverMore.

Context (E : env).
Implicit Types (w : world) (version : str) (t : datetime).

(** The answer of the external lookup, read off the reply. *)
Lemma fetch_exact version w :
  _fetch_version_start_time E version w
  = (Ok (match http_get E (length (requests w)) (version_url version) with
         | ApiReply retcode (post :: _) =>
           if (retcode =? 0) && contains (version_marker version) (subject post)
           then fromtimestamp E (created_at post) else None
         | _ => None
         end),
     with_request w (version_url version)).
Proof.
  unfold _fetch_version_start_time, try_except, ret, with_request, version_url,
    version_marker.
  destruct (http_get E _ _) as [|rc posts]; [done|].
  destruct (rc =? 0); [|by destruct posts].
  destruct posts as [|post posts]; [done|]. simpl.
  destruct (contains _ _); [|done].
  by destruct (fromtimestamp E _).
Qed.

(** What one call of the resolver does to the world. *)
Lemma resolver_effects version w r w' :
  _get_version_start_time E version w = (r, w') →
  (is_Some (default ∅ (version_file w) !! version) ∧ w' = w) ∨
  (default ∅ (version_file w) !! version = None ∧
   requests w' = requests w ++ [version_url version] ∧
   ((r = Ok None ∧ version_file w' = version_file w ∧
     write_attempts w' = write_attempts w ∧ writes w' = writes w) ∨
    (∃ t, r = Ok (Some t) ∧ write_attempts w' = S (write_attempts w) ∧
       (writes w' ≤ S (writes w))%nat ∧ (writes w ≤ writes w')%nat ∧
       version_file w'
       = match disk_write E (write_attempts w) with
         | Written =>
           Some (<[version := JString (isoformat t)]> (default ∅ (version_file w)))
         | WriteRefused => version_file w
         | WriteBroken => None
         end))).
Proof.
  intros Hr. destruct (default ∅ (version_file w) !! version) as [cached|] eqn:Hc.
  - rewrite (resolver_hit _ _ _ _ Hc) in Hr. injection Hr as <- <-.
    left. by split; [eexists|].
  - rewrite (resolver_miss _ _ _ Hc), fetch_exact in Hr. right. split; [done|].
    destruct (match http_get E _ _ with ApiFailure => _ | _ => _ end) as [t|].
    + unfold _save_version_data in Hr.
      cbn [with_request write_attempts requests writes version_file] in Hr.
      injection Hr as <- <-. split.
      * by destruct (disk_write E _).
      * right. exists t.
        destruct (disk_write E _); cbn [snd write_attempts writes version_file];
          split_and!; try done; lia.
    + injection Hr as <- <-. split; [done|]. by left.
Qed.

(** A call that does not break the file keeps every entry it finds. *)
Lemma resolver_keeps_entries version w r w' :
  disk_write E (write_attempts w) ≠ WriteBroken →
  _get_version_start_time E version w = (r, w') →
  ∀ v x, default ∅ (version_file w) !! v = Some x →
         default ∅ (version_file w') !! v = Some x.
Proof.
  intros Hdisk Hr v x Hv.
  destruct (resolver_effects _ _ _ _ Hr) as [[_ ->]|(Hc & _ & [(_ & -> & _)|(t & _ & _ & _ & _ & ->)])];
    [done | done |].
  destruct (disk_write E _); [|done|done]. simpl.
  rewrite lookup_insert_ne; [done|]. intros ->. by rewrite Hc in Hv.
Qed.

Lemma resolver_in_range version w t w' :
  env_in_range E →
  _get_version_start_time E version w = (Ok (Some t), w') → in_range_dt t.
Proof.
  intros [Hiso Hts].
  destruct (default ∅ (version_file w) !! version) as [cached|] eqn:Hc.
  - rewrite (resolver_hit _ _ _ _ Hc). intros [= Ht _].
    destruct cached as [s|]; [by apply (Hiso s) | done].
  - rewrite (resolver_miss _ _ _ Hc), fetch_exact.
    destruct (http_get E _ _) as [|rc [|post posts]]; [done..|].
    destruct ((rc =? 0) && contains _ _); [|done].
    destruct (fromtimestamp E (created_at post)) as [t0|] eqn:Ht0; [|done].
    intros [= <- _]. by apply (Hts _ _ Ht0).
Qed.

End ResolverMore.

(** X7. The external lookup asks exactly once, for the URL of the version,
    and changes nothing else of the world. It answers with a timestamp only
    when the reply has return code 0 and the subject of its first post holds
    the text 【绝区零绳网情报站】N.N版本; the timestamp is then the creation time
    of that first post. Every other reply, an empty list or a failed request
    gives [None]. *)
Theorem fetch_reads_first_post (E : env) (version : str) (w : world) :
  ∃ r, _fetch_version_start_time E version w = (Ok r, with_request w (version_url version)) ∧
    (∀ t, r = Some t ↔
       ∃ post posts,
         http_get E (length (requests w)) (version_url version) = ApiReply 0 (post :: posts) ∧
         contains (version_marker version) (subject post) = true ∧
         fromtimestamp E (created_at post) = Some t).
Proof.
  eexists. split; [apply fetch_exact|]. intros t.
  destruct (http_get E _ _) as [|rc [|post posts]].
  - split; [done | intros (? & ? & ? & _); done].
  - split; [done | intros (? & ? & ? & _); done].
  - destruct (Z.eqb_spec rc 0) as [->|Hrc]; simpl.
    + destruct (contains (version_marker version) (subject post)) eqn:Hm.
      * split; [intros Ht; by exists post, posts|].
        by intros (post' & posts' & [= <- <-] & _ & Ht).
      * split; [done|]. intros (post' & posts' & [= <- <-] & Hm' & _). congruence.
    + split; [done|]. by intros (post' & posts' & [= -> _ _] & _).
Qed.

(** The search API of the sample answers for version 1.5; for version 1.6 the
    subject of its first post does not fit. *)
Lemma fetch_reads_first_post_witness :
  let t := Sample.at_ 2024 3 15 12 0 0 in
  (http_get Sample.E 0 (version_url (py "1.5"))
   = ApiReply 0 [ApiPost (py "【绝区零绳网情报站】1.5版本前瞻") 1710475200] ∧
   contains (version_marker (py "1.5")) (py "【绝区零绳网情报站】1.5版本前瞻") = true ∧
   fromtimestamp Sample.E 1710475200 = Some t ∧
   _fetch_version_start_time Sample.E (py "1.5") Sample.w0
   = (Ok (Some t), with_request Sample.w0 (version_url (py "1.5")))) ∧
  _fetch_version_start_time Sample.E (py "1.6") Sample.w0
  = (Ok None, with_request Sample.w0 (version_url (py "1.6"))).
Proof.
  intros t.
  assert (http_get Sample.E 0 (version_url (py "1.5"))
          = ApiReply 0 [ApiPost (py "【绝区零绳网情报站】1.5版本前瞻") 1710475200]) as Hget
    by reflexivity.
  assert (contains (version_marker (py "1.5")) (py "【绝区零绳网情报站】1.5版本前瞻") = true)
    as Hm by (vm_compute; reflexivity).
  assert (fromtimestamp Sample.E 1710475200 = Some t) as Ht by (vm_compute; reflexivity).
  split_and!.
  - exact Hget.
  - exact Hm.
  - exact Ht.
  - destruct (fetch_reads_first_post Sample.E (py "1.5") Sample.w0) as (r & -> & Hr).
    assert (r = Some t) as ->; [|reflexivity].
    apply Hr. eexists _, _. split_and!; [exact Hget | exact Hm | exact Ht].
  - vm_compute. reflexivity.
Defined.



(** X9. The cache only grows: a call of the resolver whose write, if it makes
    one, does not break the file keeps every entry the file had, for the
    version asked and for all others. *)
Theorem resolver_keeps_cache (E : env) (version : str) (w : world)
    (r : result (option datetime)) (w' : world) :
  disk_write E (write_attempts w) ≠ WriteBroken →
  _get_version_start_time E version w = (r, w') →
  ∀ v x, default ∅ (version_file w) !! v = Some x →
         default ∅ (version_file w') !! v = Some x.
Proof. apply resolver_keeps_entries. Qed.

(** Version 1.5 is looked up and written into a file that knows version
    1.4: the entry of 1.4 is still there. *)
Lemma resolver_keeps_cache_witness :
  let old := JString (py "2024-01-31T11:00:00") in
  let w :=
    {| version_file := Some {[ py "1.4" := old ]};
       requests := []; write_attempts := 0; writes := 0 |} in
  ∃ w', disk_write Sample.E (write_attempts w) ≠ WriteBroken ∧
    _get_version_start_time Sample.E (py "1.5") w
    = (Ok (Some (Sample.at_ 2024 3 15 12 0 0)), w') ∧
    writes w' = 1%nat ∧
    default ∅ (version_file w) !! py "1.4" = Some old ∧
    default ∅ (version_file w') !! py "1.4" = Some old ∧
    default ∅ (version_file w') !! py "1.5" = Some (JString (py "2024-03-15T12:00:00")).
Proof.
  intros old w.
  exists {| version_file :=
              Some (<[py "1.5" := JString (py "2024-03-15T12:00:00")]> {[ py "1.4" := old ]});
            requests := [version_url (py "1.5")]; write_attempts := 1; writes := 1 |}.
  assert (disk_write Sample.E (write_attempts w) ≠ WriteBroken) as Hd
    by (intros H; discriminate H).
  assert (default ∅ (version_file w) !! py "1.4" = Some old) as Hold
    by (vm_compute; reflexivity).
  split_and!.
  - exact Hd.
  - vm_compute. reflexivity.
  - reflexivity.
  - exact Hold.
  - refine (resolver_keeps_cache Sample.E (py "1.5") w _ _ Hd _ _ _ Hold).
    vm_compute. reflexivity.
  - vm_compute. reflexivity.
Defined.



(* ===================================================================== *)
(** ** More on parse_post_content *)
(* ===================================================================== *)

Section CrawlerMore.

Context (E : env).
Implicit Types (w : world) (body t : str) (m : outcome) (p : page).

(** A post changes the world only through the resolver, and only when it
    is in the version-relative form. *)
Lemma parse_post_content_world p w r w' :
  parse_post_content E p w = (r, w') →
  w' = w ∨
  ∃ t body m r0, p = Page t body ∧ search TIME_PATTERN body = None ∧
    search VERSION_PATTERN body = Some m ∧
    _get_version_start_time E (group m 1) w = (r0, w').
Proof.
  destruct p as [|t body]; [intros [= _ <-]; by left|].
  destruct (_is_valid_post_content t body) eqn:Hgate;
    [|rewrite parse_post_content_invalid by done; intros [= _ <-]; by left].
  destruct body as [|c body]; [done|].
  rewrite parse_post_content_valid by done.
  destruct (search TIME_PATTERN (c :: body)) as [m|] eqn:Ht.
  - rewrite (extract_direct E _ w m Ht).
    destruct (_parse_direct_time m) as [[s e]|x]; intros [= _ <-]; by left.
  - destruct (search VERSION_PATTERN (c :: body)) as [m|] eqn:Hv.
    + rewrite (extract_version E _ w m Ht Hv).
      destruct (strptime (group m 2)) as [e|x] eqn:He.
      * destruct (_get_version_start_time E (group m 1) w) as [r0 w1] eqn:Hr.
        destruct (resolver_never_raises E (group m 1) w) as (r1 & w2 & Hr').
        rewrite Hr in Hr'. injection Hr' as -> ->.
        rewrite (parse_version_ok E m w e r1 w2 He Hr).
        destruct r1; intros [= _ <-]; right; exists t, (c :: body), m; eexists;
          (split_and!; first [exact Ht | exact Hv | exact Hr | reflexivity]).
      * rewrite (parse_version_raises E m w x He). intros [= _ <-]. by left.
    + unfold _extract_event_time. rewrite Ht, Hv. intros [= _ <-]. by left.
Qed.

Lemma parse_post_content_bounds p w r w' :
  parse_post_content E p w = (r, w') →
  (length (requests w') ≤ S (length (requests w)))%nat ∧
  (write_attempts w ≤ write_attempts w' ≤ S (write_attempts w))%nat ∧
  (disk_write E (write_attempts w) ≠ WriteBroken →
   ∀ v x, default ∅ (version_file w) !! v = Some x →
          default ∅ (version_file w') !! v = Some x).
Proof.
  intros Hp.
  destruct (parse_post_content_world _ _ _ _ Hp) as [->|(t & body & m & r0 & _ & _ & _ & Hr)].
  - split; [lia|]. split; [lia | done].
  - split; [|split].
    + destruct (resolver_effects E _ _ _ _ Hr) as [[_ ->]|(_ & -> & _)]; [lia|].
      rewrite length_app. simpl. lia.
    + destruct (resolver_effects E _ _ _ _ Hr)
        as [[_ ->]|(_ & _ & [(_ & _ & -> & _)|(t0 & _ & -> & _)])]; lia.
    + intros Hd. by apply (resolver_keeps_entries E _ _ _ _ Hd Hr).
Qed.

Lemma extract_event_time_in_range body w s e w' :
  _extract_event_time E body w = (Ok (Some (s, e)), w') →
  in_range_dt e ∧ (env_in_range E → in_range_dt s).
Proof.
  destruct (search TIME_PATTERN body) as [m|] eqn:Ht.
  - rewrite (extract_direct E _ w m Ht). unfold _parse_direct_time.
    destruct (strptime (group m 1)) as [s0|] eqn:Hs; [|done]. simpl.
    destruct (strptime (group m 2)) as [e0|] eqn:He; [|done]. simpl.
    intros [= <- <- _]. split; [|intros _]; by eapply strptime_in_range.
  - destruct (search VERSION_PATTERN body) as [m|] eqn:Hv.
    + rewrite (extract_version E _ w m Ht Hv).
      destruct (strptime (group m 2)) as [e0|x] eqn:He.
      * destruct (resolver_never_raises E (group m 1) w) as (r1 & w2 & Hr).
        rewrite (parse_version_ok E m w e0 r1 w2 He Hr).
        destruct r1 as [t|]; [|done]. intros [= <- <- _].
        split; [by eapply strptime_in_range|]. intros HE.
        by apply (resolver_in_range E _ _ _ _ HE Hr).
      * by rewrite (parse_version_raises E m w x He).
    + unfold _extract_event_time. by rewrite Ht, Hv.
Qed.

Lemma parse_post_content_in_range p w ev w' :
  parse_post_content E p w = (Some ev, w') →
  description ev = [] ∧ in_range_dt (end_time ev) ∧
  (env_in_range E → in_range_dt (start_time ev)).
Proof.
  destruct p as [|t body]; [done|].
  destruct (_is_valid_post_content t body) eqn:Hgate;
    [|by rewrite parse_post_content_invalid].
  destruct body as [|c body]; [done|].
  rewrite parse_post_content_valid by done.
  destruct (_extract_event_time E (c :: body) w) as [[[[s e]|]|x] w''] eqn:Hex; [|done..].
  intros [= <- _]. split; [done|]. by apply (extract_event_time_in_range _ _ _ _ _ Hex).
Qed.

End CrawlerMore.

Lemma fromkeys_from_of_fromkeys (seen l : list str) :
  fromkeys_from seen (dict_fromkeys l) = fromkeys_from seen l.
Proof.
  rewrite !fromkeys_from_dedup. do 2 f_equal.
  rewrite <- (dict_fromkeys_dedup (dict_fromkeys l)), <- dict_fromkeys_dedup.
  apply dict_fromkeys_id, dict_fromkeys_NoDup.
Qed.

Lemma dict_fromkeys_app_fromkeys (a b : list str) :
  dict_fromkeys (dict_fromkeys a ++ dict_fromkeys b) = dict_fromkeys (a ++ b).
Proof.
  unfold dict_fromkeys at 1 4. rewrite !fromkeys_from_app.
  fold (dict_fromkeys (dict_fromkeys a)). fold (dict_fromkeys a).
  rewrite (dict_fromkeys_id (dict_fromkeys a)) by apply dict_fromkeys_NoDup.
  apply fromkeys_from_of_fromkeys.
Qed.

Lemma extract_agents_title_segments body t :
  _extract_agents_title body = Some t →
  (∀ m, m ∈ findall AGENTS_PATTERN body → DELIM ∉ agent_text m) →
  split DELIM t = dict_fromkeys (map agent_text (findall AGENTS_PATTERN body)).
Proof.
  unfold _extract_agents_title.
  destruct (findall AGENTS_PATTERN body) as [|m ms] eqn:Hf; [done|].
  intros [= <-] Hno. apply split_join.
  - by apply dict_fromkeys_nonempty.
  - intros seg Hin. apply (proj1 (dict_fromkeys_elem _ _)) in Hin.
    apply list_elem_of_In, in_map_iff in Hin as (m' & <- & Hin%list_elem_of_In).
    by apply Hno.
Qed.

(** X11. Parsing one post makes at most one request and at most one attempt
    to write the version file, and when no write breaks the file it keeps every
    entry the file had. The world changes only for a post that the direct
    pattern does not match and the version pattern does, and then by what the
    resolver does for the version captured. *)
Theorem parse_post_content_effort (E : env) (p : page) (w : world)
    (r : option event) (w' : world) :
  parse_post_content E p w = (r, w') →
  (length (requests w') ≤ S (length (requests w)))%nat ∧
  (write_attempts w ≤ write_attempts w' ≤ S (write_attempts w))%nat ∧
  (disk_write E (write_attempts w) ≠ WriteBroken →
   ∀ v x, default ∅ (version_file w) !! v = Some x →
          default ∅ (version_file w') !! v = Some x) ∧
  (w' = w ∨
   ∃ t body m r0, p = Page t body ∧ search TIME_PATTERN body = None ∧
     search VERSION_PATTERN body = Some m ∧
     _get_version_start_time E (group m 1) w = (r0, w')).
Proof.
  intros Hp. destruct (parse_post_content_bounds E _ _ _ _ Hp) as (H1 & H2 & H3).
  split; [done|]. split; [done|]. split; [done|].
  by apply (parse_post_content_world E _ _ _ _ Hp).
Qed.

(** The first banner of the sample run, from an empty start: one request,
    one write. *)
Lemma parse_post_content_effort_witness :
  ∃ ev w', parse_post_content Sample.E (Page (py "A") SampleRun.banner_a) Sample.w0
           = (Some ev, w') ∧
    requests w' = [version_url (py "1.5")] ∧ write_attempts w' = 1%nat ∧
    (length (requests w') ≤ S (length (requests Sample.w0)))%nat ∧
    (write_attempts w' ≤ S (write_attempts Sample.w0))%nat.
Proof.
  exists (Event (py "艾莲(冰)") (Sample.at_ 2024 3 15 12 0 0) (Sample.at_ 2024 4 1 10 0 0) []),
         {| version_file := Some {[ py "1.5" := JString (py "2024-03-15T12:00:00") ]};
            requests := [version_url (py "1.5")]; write_attempts := 1; writes := 1 |}.
  match goal with
  | |- ?H1 ∧ _ => assert H1 as Hp by (vm_compute; reflexivity)
  end.
  split_and!.
  - exact Hp.
  - reflexivity.
  - reflexivity.
  - exact (proj1 (parse_post_content_effort Sample.E _ _ _ _ Hp)).
  - exact (proj2 (proj1 (proj2 (parse_post_content_effort Sample.E _ _ _ _ Hp)))).
Defined.




(** X13. When no agent text holds the delimiter 、, a derived title splits
    back into its agent texts, each once in first-seen order; and when two
    posts of one window both have derived titles, the merged title is the
    agent texts of the first post followed by those of the second, each kept
    at its first occurrence. *)
Theorem derived_titles_merge (b1 b2 t1 t2 : str) (s e : datetime) (d1 d2 : str) :
  _extract_agents_title b1 = Some t1 → _extract_agents_title b2 = Some t2 →
  (∀ m, m ∈ findall AGENTS_PATTERN b1 ++ findall AGENTS_PATTERN b2 →
        DELIM ∉ agent_text m) →
  split DELIM t1 = dedup_first_seen (map agent_text (findall AGENTS_PATTERN b1)) ∧
  merge_events [Event t1 s e d1; Event t2 s e d2]
  = [((isoformat s, isoformat e),
      Event (join [DELIM]
               (dedup_first_seen
                  (map agent_text (findall AGENTS_PATTERN b1 ++ findall AGENTS_PATTERN b2))))
            s e d1)].
Proof.
  intros H1 H2 Hno.
  assert (split DELIM t1 = dict_fromkeys (map agent_text (findall AGENTS_PATTERN b1))) as Hs1.
  { apply extract_agents_title_segments; [done|].
    intros m Hm. apply Hno, elem_of_app. by left. }
  assert (split DELIM t2 = dict_fromkeys (map agent_text (findall AGENTS_PATTERN b2))) as Hs2.
  { apply extract_agents_title_segments; [done|].
    intros m Hm. apply Hno, elem_of_app. by right. }
  split; [by rewrite Hs1, dict_fromkeys_dedup|].
  rewrite merge_two_same by done. unfold segments, time_key. cbn [title start_time end_time].
  rewrite Hs1, Hs2, dict_fromkeys_app_fromkeys, <- map_app, dict_fromkeys_dedup.
  reflexivity.
Qed.

(** Two posts of one window, naming A(B), C(D) and C(D), E(F). *)
Lemma derived_titles_merge_witness :
  let b1 := py "代理人 [A(B)] 和 [C(D)]" in
  let b2 := py "代理人 [C(D)] 和 [E(F)]" in
  let s := Sample.at_ 2024 3 1 10 0 0 in
  let e := Sample.at_ 2024 3 22 10 0 0 in
  _extract_agents_title b1 = Some (py "A(B)、C(D)") ∧
  _extract_agents_title b2 = Some (py "C(D)、E(F)") ∧
  split DELIM (py "A(B)、C(D)") = [py "A(B)"; py "C(D)"] ∧
  merge_events [Event (py "A(B)、C(D)") s e []; Event (py "C(D)、E(F)") s e []]
  = [((py "2024-03-01T10:00:00", py "2024-03-22T10:00:00"),
      Event (py "A(B)、C(D)、E(F)") s e [])].
Proof.
  intros b1 b2 s e.
  assert (_extract_agents_title b1 = Some (py "A(B)、C(D)")) as H1 by (vm_compute; reflexivity).
  assert (_extract_agents_title b2 = Some (py "C(D)、E(F)")) as H2 by (vm_compute; reflexivity).
  assert (∀ m, m ∈ findall AGENTS_PATTERN b1 ++ findall AGENTS_PATTERN b2 →
               DELIM ∉ agent_text m) as Hno.
  { assert (findall AGENTS_PATTERN b1 ++ findall AGENTS_PATTERN b2
            = [[py "A"; py "B"]; [py "C"; py "D"]; [py "C"; py "D"]; [py "E"; py "F"]]) as ->
      by (vm_compute; reflexivity).
    intros m Hm. repeat (apply elem_of_cons in Hm as [->|Hm]);
      [| | | | by apply not_elem_of_nil in Hm];
      vm_compute; intros Hin;
      repeat (apply elem_of_cons in Hin as [Hin|Hin]; [discriminate Hin|]);
      by apply not_elem_of_nil in Hin. }
  destruct (derived_titles_merge b1 b2 _ _ s e [] [] H1 H2 Hno) as [Hsplit Hmerge].
  split_and!.
  - exact H1.
  - exact H2.
  - rewrite Hsplit. vm_compute. reflexivity.
  - rewrite Hmerge. vm_compute. reflexivity.
Defined.

(* ===================================================================== *)
(** ** A run of [main] *)
(* ===================================================================== *)

Section MainLemmas.

Context (D : desktop) (E : env).
Implicit Types (w : world) (posts : list post) (events : list event) (c : calendar).



Lemma concat_length_bounds {A B} (f : A → list B) (l : list A) :
  Forall (λ x, (1 ≤ length (f x) ≤ 2)%nat) l →
  (length l ≤ length (concat (map f l)) ≤ 2 * length l)%nat.
Proof.
  induction 1 as [|x l Hx _ IH]; simpl; [lia|]. rewrite length_app. lia.
Qed.

(** The loop over the posts. *)
Lemma parse_posts_props n posts w events w' :
  parse_posts D E n posts w = (events, w') →
  (length events ≤ length posts)%nat ∧
  (length (requests w') ≤ length (requests w) + length posts)%nat ∧
  (write_attempts w ≤ write_attempts w')%nat ∧
  (write_attempts w' ≤ write_attempts w + length posts)%nat ∧
  Forall (λ ev, description ev = [] ∧ in_range_dt (end_time ev) ∧
                (env_in_range E → in_range_dt (start_time ev))) events ∧
  ((∀ i, disk_write E i ≠ WriteBroken) →
   ∀ v x, default ∅ (version_file w) !! v = Some x →
          default ∅ (version_file w') !! v = Some x).
Proof.
  revert n w events w'. induction posts as [|p posts IH]; intros n w events w'.
  - cbn [parse_posts]. intros [= <- <-]. cbn [length].
    split; [lia|]. split; [lia|]. split; [lia|]. split; [lia|].
    split; [apply Forall_nil_2 | done].
  - cbn [parse_posts].
    destruct (parse_post_content E (page_of D n p) w) as [r1 w1] eqn:H1.
    destruct (parse_posts D E (S n) posts w1) as [evs w2] eqn:H2.
    intros [= <- <-].
    destruct (IH _ _ _ _ H2) as (Ha & Hb & Hc & Hd & He & Hf).
    destruct (parse_post_content_bounds E _ _ _ _ H1) as (Hb1 & [Hc1 Hd1] & Hf1).
    cbn [length].
    split; [destruct r1; cbn [length]; lia|]. split; [lia|]. split; [lia|]. split; [lia|].
    split.
    + destruct r1 as [ev|]; [|done]. apply Forall_cons_2; [|done].
      by apply (parse_post_content_in_range E _ _ _ _ H1).
    + intros Hdisk v x Hv. apply (Hf Hdisk). by apply (Hf1 (Hdisk _)).
Qed.

(** Posts that the gate rejects leave no event and do not touch the
    world. *)
Lemma parse_posts_rejected n posts w :
  (∀ i p, posts !! i = Some p →
     ∀ t body, page_of D (n + i) p = Page t body → _is_valid_post_content t body = false) →
  parse_posts D E n posts w = ([], w).
Proof.
  revert n. induction posts as [|p posts IH]; intros n Hrej; [done|].
  cbn [parse_posts].
  assert (parse_post_content E (page_of D n p) w = (None, w)) as ->.
  { destruct (page_of D n p) as [|t body] eqn:Hpage; [done|].
    apply parse_post_content_invalid. apply (Hrej 0%nat p eq_refl).
    by rewrite Nat.add_0_r. }
  rewrite IH; [done|]. intros i p' Hp' t body Hpage.
  apply (Hrej (S i) p' Hp' t body). by rewrite Nat.add_succ_r.
Qed.

(** [main] unfolded along its early returns. *)
Lemma main_cases w out w' :
  main D E w = (out, w') →
  (w' = w ∧ (out = CrawlerFailed ∨ out = NoPosts)) ∨
  ∃ events, parse_posts D E 0 (get_posts D (py "调频说明")) w = (events, w') ∧
    ((events = [] ∧ out = NoEvents) ∨
     (events ≠ [] ∧
      ∃ c, c = add_events (merge_events events) new_calendar ∧
           (out = Saved c ∨ out = SaveFailed c) ∧
           (out = Saved c ↔ ics_writable D = true))).
Proof.
  unfold main. destruct (driver_starts D); cbn [negb]; [|intros [= <- <-]; left; auto].
  destruct (get_posts D (py "调频说明")) as [|p posts] eqn:Hposts;
    [intros [= <- <-]; left; auto|].
  destruct (parse_posts D E 0 (p :: posts) w) as [events w1] eqn:Hparse.
  destruct events as [|ev events]; intros [= <- <-]; right.
  - exists []. split; [done|]. by left.
  - exists (ev :: events). split; [done|]. right. split; [done|].
    eexists. split; [reflexivity|].
    destruct (ics_writable D); split; auto; split; (done || intros [=]).
Qed.

End MainLemmas.

Section RunLemmas.

Context (D : desktop) (E : env).



End RunLemmas.



(** X15. The effort of a run. [main] makes at most one request to the search
    API and at most one attempt to write the version file for each post that
    [get_posts] returns, and never takes an attempt back; a run that ends
    before the loop over the posts touches neither the network nor the
    file. *)
Theorem main_effort (D : desktop) (E : env) (w : world) (out : run) (w' : world) :
  main D E w = (out, w') →
  let posts := get_posts D (py "调频说明") in
  (length (requests w') ≤ length (requests w) + length posts)%nat ∧
  (write_attempts w ≤ write_attempts w')%nat ∧
  (write_attempts w' ≤ write_attempts w + length posts)%nat ∧
  (out = CrawlerFailed ∨ out = NoPosts → w' = w).
Proof.
  intros Hmain posts.
  destruct (main_cases D E _ _ _ Hmain) as [(-> & _)|(events & Hparse & Hcase)].
  { split; [lia|]. split; [lia|]. split; [lia | done]. }
  destruct (parse_posts_props D E _ _ _ _ _ Hparse) as (_ & Hreq & Hw1 & Hw2 & _).
  split; [done|]. split; [done|]. split; [done|].
  intros Hout.
  destruct Hcase as [(_ & ->)|(_ & c & _ & [->| ->] & _)]; by destruct Hout.
Qed.

(** The sample run: three posts, one request and one write. *)
Lemma main_effort_witness :
  ∃ out w', main SampleRun.D Sample.E Sample.w0 = (out, w') ∧
    length (get_posts SampleRun.D (py "调频说明")) = 3%nat ∧
    length (requests w') = 1%nat ∧ write_attempts w' = 1%nat ∧
    (length (requests w')
     ≤ length (requests Sample.w0) + length (get_posts SampleRun.D (py "调频说明")))%nat.
Proof.
  eexists (Saved _),
         {| version_file := Some {[ py "1.5" := JString (py "2024-03-15T12:00:00") ]};
            requests := [version_url (py "1.5")]; write_attempts := 1; writes := 1 |}.
  match goal with
  | |- ?H1 ∧ _ => assert H1 as Hm by (vm_compute; reflexivity)
  end.
  split; [exact Hm|]. split; [vm_compute; reflexivity|].
  split; [reflexivity|]. split; [reflexivity|].
  exact (proj1 (main_effort SampleRun.D Sample.E _ _ _ Hm)).
Defined.

(** X16. A run never forgets a version: when no write of the version file
    breaks it, every entry the file had before [main] is there after it,
    however the run ends. *)
Theorem main_keeps_cache (D : desktop) (E : env) (w : world) (out : run) (w' : world) :
  (∀ i, disk_write E i ≠ WriteBroken) →
  main D E w = (out, w') →
  ∀ v x, default ∅ (version_file w) !! v = Some x →
         default ∅ (version_file w') !! v = Some x.
Proof.
  intros Hdisk Hmain.
  destruct (main_cases D E _ _ _ Hmain) as [(-> & _)|(events & Hparse & _)]; [done|].
  destruct (parse_posts_props D E _ _ _ _ _ Hparse) as (_ & _ & _ & _ & _ & Hkeep).
  by apply Hkeep.
Qed.

(** The sample run on a file that knows version 1.4: version 1.5 is looked
    up and written, and the entry of 1.4 is still there. *)
Lemma main_keeps_cache_witness :
  let old := JString (py "2024-01-31T11:00:00") in
  let w :=
    {| version_file := Some {[ py "1.4" := old ]};
       requests := []; write_attempts := 0; writes := 0 |} in
  ∃ out w', (∀ i, disk_write Sample.E i ≠ WriteBroken) ∧
    main SampleRun.D Sample.E w = (out, w') ∧
    writes w' = 1%nat ∧
    default ∅ (version_file w) !! py "1.4" = Some old ∧
    default ∅ (version_file w') !! py "1.4" = Some old ∧
    default ∅ (version_file w') !! py "1.5" = Some (JString (py "2024-03-15T12:00:00")).
Proof.
  intros old w.
  eexists (Saved _),
    {| version_file :=
         Some (<[py "1.5" := JString (py "2024-03-15T12:00:00")]> {[ py "1.4" := old ]});
       requests := [version_url (py "1.5")]; write_attempts := 1; writes := 1 |}.
  assert (∀ i, disk_write Sample.E i ≠ WriteBroken) as Hd
    by (intros i H; discriminate H).
  assert (default ∅ (version_file w) !! py "1.4" = Some old) as Hold
    by (vm_compute; reflexivity).
  match goal with
  | |- _ ∧ ?H1 ∧ _ => assert H1 as Hm by (vm_compute; reflexivity)
  end.
  split; [exact Hd|]. split; [exact Hm|]. split; [reflexivity|]. split; [exact Hold|].
  split; [exact (main_keeps_cache SampleRun.D Sample.E _ _ _ Hd Hm _ _ Hold)|].
  vm_compute; reflexivity.
Defined.

(** X17. A run without a calendar. When the driver starts and the gate
    rejects every post that [get_posts] returns whose page loads, [main] ends
    before anything is merged or saved, and without a request or a write:
    with no posts at all when the list is empty (the search page failed, or
    no card had both its elements), with no events otherwise. *)
Theorem main_no_output (D : desktop) (E : env) (w : world) :
  driver_starts D = true →
  (∀ i p, get_posts D (py "调频说明") !! i = Some p →
     ∀ t body, page_of D i p = Page t body → _is_valid_post_content t body = false) →
  main D E w
  = (match get_posts D (py "调频说明") with [] => NoPosts | _ :: _ => NoEvents end, w).
Proof.
  intros Hdriver Hrej. unfold main. rewrite Hdriver. cbn [negb].
  destruct (get_posts D (py "调频说明")) as [|p posts]; [done|].
  by rewrite (parse_posts_rejected D E 0 (p :: posts) w Hrej).
Qed.

(** A search page whose posts are all engine banners: three posts, no
    events, nothing requested. *)
Lemma main_no_output_witness :
  let D := {| driver_starts := true;
              show_search := show_search SampleRun.D;
              show_post := fun _ _ => Page (py "C") SampleRun.banner_engine;
              ics_writable := true |} in
  length (get_posts D (py "调频说明")) = 3%nat ∧
  main D Sample.E Sample.w0 = (NoEvents, Sample.w0).
Proof.
  intros D. split; [vm_compute; reflexivity|].
  assert (∀ i p, get_posts D (py "调频说明") !! i = Some p →
            ∀ t body, page_of D i p = Page t body →
                      _is_valid_post_content t body = false) as Hrej.
  { intros i p _ t body. unfold page_of. destruct (url p); [|discriminate].
    cbn [show_post D]. intros [= <- <-]. vm_compute; reflexivity. }
  exact (main_no_output D Sample.E Sample.w0 eq_refl Hrej).
Defined.

(* ===================================================================== *)
(** ** The list of posts *)
(* ===================================================================== *)

Section StripLemmas.

Implicit Types (s : str) (c : char).

Lemma lstrip_split s :
  ∃ k, s = k ++ lstrip s ∧ Forall (λ c, is_space c = true) k.
Proof.
  induction s as [|c s (k & Hk & Hall)]; [by exists []|].
  cbn [lstrip]. destruct (is_space c) eqn:Hc.
  - exists (c :: k). split; [cbn [app]; by rewrite <- Hk | by apply Forall_cons_2].
  - by exists [].
Qed.

Lemma lstrip_head s c : head (lstrip s) = Some c → is_space c = false.
Proof.
  induction s as [|c' s IH]; [done|]. cbn [lstrip].
  destruct (is_space c') eqn:Hc; [done|]. by intros [= <-].
Qed.

Lemma lstrip_id s : (∀ c, head s = Some c → is_space c = false) → lstrip s = s.
Proof. destruct s as [|c s]; [done|]. intros H. cbn [lstrip]. by rewrite (H c eq_refl). Qed.

Lemma strip_split s :
  ∃ l r, s = l ++ strip s ++ r ∧
    Forall (λ c, is_space c = true) l ∧ Forall (λ c, is_space c = true) r.
Proof.
  unfold strip. destruct (lstrip_split s) as (l & Hl & Hall).
  destruct (lstrip_split (rev (lstrip s))) as (k & Hk & Hallk).
  exists l, (rev k). split; [|split; [done|]].
  - rewrite <- rev_app_distr, <- Hk, rev_involutive. exact Hl.
  - apply Forall_forall. intros c Hin. rewrite Forall_forall in Hallk.
    apply Hallk. by apply list_elem_of_In, in_rev, list_elem_of_In.
Qed.

Lemma last_rev s : last (rev s) = head s.
Proof. destruct s as [|c s]; [done|]. cbn [rev]. by rewrite last_snoc. Qed.

Lemma strip_last s c : last (strip s) = Some c → is_space c = false.
Proof. unfold strip. rewrite last_rev. apply lstrip_head. Qed.

Lemma strip_head s c : head (strip s) = Some c → is_space c = false.
Proof.
  unfold strip. destruct (lstrip_split (rev (lstrip s))) as (k & Hk & _).
  assert (lstrip s = rev (lstrip (rev (lstrip s))) ++ rev k) as Heq.
  { by rewrite <- rev_app_distr, <- Hk, rev_involutive. }
  intros Hh. apply (lstrip_head s). rewrite Heq.
  destruct (rev (lstrip (rev (lstrip s)))); [done | exact Hh].
Qed.

Lemma strip_strip s : strip (strip s) = strip s.
Proof.
  unfold strip at 1. rewrite (lstrip_id (strip s)) by apply strip_head.
  rewrite lstrip_id; [apply rev_involutive|].
  intros c. rewrite <- last_rev, rev_involutive. apply strip_last.
Qed.

End StripLemmas.

(** X18. The posts of the search page. When the search page shows its
    cards, [get_posts] returns one post for each card in which it finds both
    elements, in the order of the page, with the link of the card as it is
    (also when there is none) and with the title stripped: the title of the
    card is the title of the post between two runs of whitespace, and the
    title of the post neither starts nor ends with whitespace. Cards in
    which an element is missing are skipped. *)
Theorem get_posts_cards (D : desktop) (keyword : str) (cards : list card) :
  show_search D (BASE_URL ++ py "?keyword=" ++ keyword) = SearchPage cards →
  Forall2 (λ p c, ∃ t l r, c = Card t (url p) ∧ t = l ++ post_title p ++ r ∧
                    Forall (λ x, is_space x = true) l ∧
                    Forall (λ x, is_space x = true) r ∧
                    (∀ x, head (post_title p) = Some x → is_space x = false) ∧
                    (∀ x, last (post_title p) = Some x → is_space x = false))
          (get_posts D keyword) (filter (λ c, card_found c = true) cards) ∧
  (length (get_posts D keyword) ≤ length cards)%nat.
Proof.
  intros Hsearch. unfold get_posts. rewrite Hsearch. clear Hsearch.
  induction cards as [|c cards (IH1 & IH2)]; [split; [constructor | done]|].
  destruct c as [|t h].
  - cbn [omap list_omap]. rewrite filter_cons_False by (cbn [card_found]; done).
    split; [done | cbn [length]; lia].
  - cbn [omap list_omap]. rewrite filter_cons_True by done.
    split; [|cbn [length]; lia].
    constructor; [|done]. cbn [url post_title].
    destruct (strip_split t) as (l & r & Ht & Hl & Hr).
    exists t, l, r. split; [done|]. split; [done|]. split; [done|]. split; [done|].
    split; [apply strip_head | apply strip_last].
Qed.

(** The sample page: four cards, one without its elements, three posts; the
    title of the first loses its blanks. *)
Lemma get_posts_cards_witness :
  ∃ cards,
    show_search SampleRun.D (BASE_URL ++ py "?keyword=" ++ py "调频说明") = SearchPage cards ∧
    length cards = 4%nat ∧
    map post_title (get_posts SampleRun.D (py "调频说明"))
    = [py "调频说明 A"; py "调频说明 B"; py "调频说明 C"] ∧
    (length (get_posts SampleRun.D (py "调频说明")) ≤ length cards)%nat.
Proof.
  eexists. split; [reflexivity|]. split; [reflexivity|].
  split; [vm_compute; reflexivity|].
  exact (proj2 (get_posts_cards SampleRun.D (py "调频说明") _ eq_refl)).
Defined.
